(** * Monthly reconciliation of income and expense aggregates

    A shallow embedding of [generar_resumen] from [create_sheet.py]: the
    function that joins two sparse monthly aggregates (income, expense) onto
    a twelve-month scaffold, zero-fills the gaps, converts the amounts to
    [Decimal] and computes the balance of every month.

    The embedding follows the source line by line.  The library operations
    it calls ([int], [str], [decimal.Decimal], [pandas.merge], [fillna],
    [sort_values]) are modelled in modules of their own, each from the
    behaviour of the library:

    - the amounts of a query result are finite [Decimal]s, as the database
      connector delivers the sums of DECIMAL columns; years and months are
      integers;
    - [Decimal] arithmetic runs under the default context (28 digits, round
      half even); the summary is computed with [sub], which has no exponent
      limits, and [sub_context], which has them, answers the same on
      decimals of the database;
    - strings are sequences of code points below 256.

    The rest of [create_sheet.py] follows as far as its own logic goes: the
    menu loop and the default year of [main], the sheets that a run of
    [main] writes, and the charts that [agregar_graficos] attaches to the
    summary sheet.  The database, the workbook file and the styling of the
    cells are outside. *)

From Stdlib Require Import ZArith QArith Qpower List String Ascii Bool Lia Sorted Permutation.
Import ListNotations.

Local Open Scope Z_scope.

(** ** Python's [decimal.Decimal] under the default context

    A finite [Decimal] is a sign, a coefficient and an exponent
    ([_sign], [_int], [_exp] in [_pydecimal.py]); its value is
    [(-1)^sign * coefficient * 10^exponent].  Monetary amounts delivered by
    the database connector are always finite, so NaN and infinities are not
    represented. *)
Module PyDecimal.

Record Decimal := mkDecimal {
  dsign : bool;   (* true for a negative number *)
  dint  : N;      (* the coefficient *)
  dexp  : Z       (* the exponent *)
}.

(** The default context: [prec=28], [rounding=ROUND_HALF_EVEN]. *)
Definition prec : Z := 28.

Definition coef (d : Decimal) : Z := Z.of_N (dint d).

(** [len(str(n))] for a natural number [n]. *)
Fixpoint ndigits_fuel (fuel : nat) (n : Z) : Z :=
  match fuel with
  | O => 1
  | S f => if n <? 10 then 1 else 1 + ndigits_fuel f (n / 10)
  end.

Definition ndigits (n : Z) : Z := ndigits_fuel (S (Z.to_nat (Z.log2 n))) n.

(** [not self]: the coefficient is zero. *)
Definition is_zero (d : Decimal) : bool := (coef d =? 0).

Definition copy_negate (d : Decimal) : Decimal :=
  mkDecimal (negb (dsign d)) (dint d) (dexp d).

(** [_round_half_even(self, prec)] on a coefficient [c] of which the last [k]
    digits are dropped.  The answer is [1] when the kept digits are to be
    incremented, [0] when the dropped digits are all zero and [-1] otherwise. *)
Definition round_half_up (c k : Z) : Z :=
  let r := c mod 10 ^ k in
  if 5 * 10 ^ (k - 1) <=? r then 1
  else if r =? 0 then 0 else -1.

Definition round_half_even (c k : Z) : Z :=
  let r := c mod 10 ^ k in
  if (r =? 5 * 10 ^ (k - 1)) && Z.even (c / 10 ^ k) then -1
  else round_half_up c k.

(** [_rescale(exp, ROUND_HALF_EVEN)]. *)
Definition rescale (d : Decimal) (exp : Z) : Decimal :=
  if is_zero d then mkDecimal (dsign d) 0 exp
  else if exp <=? dexp d then
    mkDecimal (dsign d) (Z.to_N (coef d * 10 ^ (dexp d - exp))) exp
  else
    let digits := ndigits (coef d) + dexp d - exp in
    let '(c, digits) := if digits <? 0 then (1, 0) else (coef d, digits) in
    let k := ndigits c - digits in
    let changed := round_half_even c k in
    let coeff := if digits =? 0 then 0 else c / 10 ^ k in
    mkDecimal (dsign d) (Z.to_N (if changed =? 1 then coeff + 1 else coeff)) exp.

(** [_fix(context)]: round to [prec] significant digits.  This is [_fix]
    for numbers inside the exponent limits of the context; [fix_context]
    below has the limits, and on sums and differences of database decimals
    the two agree ([add_context_db], [sub_context_db]). *)
Definition fix_ (d : Decimal) : Decimal :=
  if is_zero d then d
  else
    let len := ndigits (coef d) in
    let exp_min := len + dexp d - prec in
    if dexp d <? exp_min then
      let digits := len + dexp d - exp_min in
      let k := len - digits in
      let changed := round_half_even (coef d) k in
      let coeff := coef d / 10 ^ k in
      if 0 <? changed then
        let coeff := coeff + 1 in
        if prec <? ndigits coeff
        then mkDecimal (dsign d) (Z.to_N (coeff / 10)) (exp_min + 1)
        else mkDecimal (dsign d) (Z.to_N coeff) exp_min
      else mkDecimal (dsign d) (Z.to_N coeff) exp_min
    else d.

(** [_WorkRep]: sign, integer coefficient, exponent. *)
Record WorkRep := mkWork { wsign : bool; wint : Z; wexp : Z }.

Definition work (d : Decimal) : WorkRep := mkWork (dsign d) (coef d) (dexp d).

(** [_normalize(op1, op2, prec)]: bring both operands to one exponent.  An
    operand too small to influence the rounded result is replaced by a
    single unit at an exponent just below the precision. *)
Definition normalize (op1 op2 : WorkRep) : WorkRep * WorkRep :=
  let swap := wexp op1 <? wexp op2 in
  let tmp := if swap then op2 else op1 in
  let other := if swap then op1 else op2 in
  let tmp_len := ndigits (wint tmp) in
  let other_len := ndigits (wint other) in
  let exp := wexp tmp + Z.min (-1) (tmp_len - prec - 2) in
  let other := if other_len + wexp other - 1 <? exp
               then mkWork (wsign other) 1 exp else other in
  let tmp := mkWork (wsign tmp) (wint tmp * 10 ^ (wexp tmp - wexp other)) (wexp other) in
  if swap then (other, tmp) else (tmp, other).

(** [Decimal.__add__] on finite operands ([negativezero] is [0] because the
    rounding mode is not [ROUND_FLOOR]). *)
Definition add (a b : Decimal) : Decimal :=
  let exp := Z.min (dexp a) (dexp b) in
  if is_zero a && is_zero b then
    fix_ (mkDecimal (dsign a && dsign b) 0 exp)
  else if is_zero a then
    fix_ (rescale b (Z.max exp (dexp b - prec - 1)))
  else if is_zero b then
    fix_ (rescale a (Z.max exp (dexp a - prec - 1)))
  else
    let '(op1, op2) := normalize (work a) (work b) in
    if negb (Bool.eqb (wsign op1) (wsign op2)) then
      if wint op1 =? wint op2 then fix_ (mkDecimal false 0 exp)
      else
        let '(op1, op2) := if wint op1 <? wint op2 then (op2, op1) else (op1, op2) in
        fix_ (mkDecimal (wsign op1) (Z.to_N (wint op1 - wint op2)) (wexp op1))
    else
      fix_ (mkDecimal (wsign op1) (Z.to_N (wint op1 + wint op2)) (wexp op1)).

(** [Decimal.__sub__]: [self + other.copy_negate()]. *)
Definition sub (a b : Decimal) : Decimal := add a (copy_negate b).

(** *** The exponent limits of the context

    The default context has [Emax = 999999] and [Emin = -999999], and
    traps [Overflow].  [fix_context], [add_context] and [sub_context] are
    [_fix], [__add__] and [__sub__] with these limits. *)
Inductive DecimalException : Type :=
  | Overflow.

Definition Emax : Z := 999999.
Definition Emin : Z := -999999.
Definition Etiny : Z := Emin - prec + 1.
Definition Etop : Z := Emax - prec + 1.

Definition fix_context (d : Decimal) : DecimalException + Decimal :=
  if is_zero d then
    inr (mkDecimal (dsign d) 0 (Z.min (Z.max (dexp d) Etiny) Emax))
  else
    let len := ndigits (coef d) in
    let exp_min := len + dexp d - prec in
    if Etop <? exp_min then inl Overflow
    else
      let exp_min := if exp_min <? Etiny then Etiny else exp_min in
      if dexp d <? exp_min then
        let digits := len + dexp d - exp_min in
        let '(c, digits) := if digits <? 0 then (1, 0) else (coef d, digits) in
        let k := ndigits c - digits in
        let changed := round_half_even c k in
        let coeff := if digits =? 0 then 0 else c / 10 ^ k in
        let '(coeff, exp_min) :=
          if 0 <? changed then
            if prec <? ndigits (coeff + 1)
            then ((coeff + 1) / 10, exp_min + 1) else (coeff + 1, exp_min)
          else (coeff, exp_min) in
        if Etop <? exp_min then inl Overflow
        else inr (mkDecimal (dsign d) (Z.to_N coeff) exp_min)
      else inr d.

Definition add_context (a b : Decimal) : DecimalException + Decimal :=
  let exp := Z.min (dexp a) (dexp b) in
  if is_zero a && is_zero b then
    fix_context (mkDecimal (dsign a && dsign b) 0 exp)
  else if is_zero a then
    fix_context (rescale b (Z.max exp (dexp b - prec - 1)))
  else if is_zero b then
    fix_context (rescale a (Z.max exp (dexp a - prec - 1)))
  else
    let '(op1, op2) := normalize (work a) (work b) in
    if negb (Bool.eqb (wsign op1) (wsign op2)) then
      if wint op1 =? wint op2 then fix_context (mkDecimal false 0 exp)
      else
        let '(op1, op2) := if wint op1 <? wint op2 then (op2, op1) else (op1, op2) in
        fix_context (mkDecimal (wsign op1) (Z.to_N (wint op1 - wint op2)) (wexp op1))
    else
      fix_context (mkDecimal (wsign op1) (Z.to_N (wint op1 + wint op2)) (wexp op1)).

Definition sub_context (a b : Decimal) : DecimalException + Decimal :=
  add_context a (copy_negate b).

(** A DECIMAL of the database: at most 65 digits, of which at most 30 after
    the point.  The fillings [Decimal('0')] and [Decimal('0.0')] are of that
    kind too. *)
Definition db_decimal (d : Decimal) : Prop :=
  coef d < 10 ^ 65 /\ -30 <= dexp d <= 0.

(** A number far inside the exponent limits of the context. *)
Definition moderate (d : Decimal) : Prop :=
  coef d < 10 ^ 100 /\ -100 <= dexp d <= 100.

(** The rational number a [Decimal] stands for. *)
Definition sval (d : Decimal) : Z := if dsign d then - coef d else coef d.

Definition value (d : Decimal) : Q := inject_Z (sval d) * inject_Z 10 ^ dexp d.

(** The signed coefficient of [d] written at the exponent [e <= dexp d]. *)
Definition aligned (d : Decimal) (e : Z) : Z := sval d * 10 ^ (dexp d - e).

End PyDecimal.

(** ** The strings of [Decimal]

    [Decimal.__str__] and the [Decimal] constructor on a string, after
    [_pydecimal.py].  Strings are sequences of code points below 256. *)
Module PyDecimalStr.

Import PyDecimal.

Local Open Scope string_scope.
Local Open Scope Z_scope.

(** The character of a decimal digit. *)
Definition digit_char (d : Z) : ascii := ascii_of_N (Z.to_N (48 + d)).

Definition is_digit (c : ascii) : bool :=
  let n := Z.of_N (N_of_ascii c) in (48 <=? n) && (n <=? 57).

Definition digit_val (c : ascii) : Z := Z.of_N (N_of_ascii c) - 48.

(** [str(n)] for an integer [n >= 0]. *)
Fixpoint str_nat_fuel (fuel : nat) (n : Z) : string :=
  match fuel with
  | O => ""
  | S f => (if n <? 10 then "" else str_nat_fuel f (n / 10))
           ++ String (digit_char (n mod 10)) ""
  end.

Definition str_nat (n : Z) : string := str_nat_fuel (S (Z.to_nat (Z.log2 n))) n.

(** [str(n)] for an integer. *)
Definition str_int (n : Z) : string :=
  if n <? 0 then "-" ++ str_nat (- n) else str_nat n.

(** ["%+d" % n]. *)
Definition format_signed (n : Z) : string :=
  if n <? 0 then "-" ++ str_nat (- n) else "+" ++ str_nat n.

(** ['0' * k]. *)
Definition zeros (k : Z) : string := string_of_list_ascii (repeat "0"%char (Z.to_nat k)).

(** The slices [s[:n]] and [s[n:]] for [0 <= n]. *)
Fixpoint take (n : nat) (s : string) : string :=
  match n, s with
  | S n', String c s' => String c (take n' s')
  | _, _ => ""
  end.

Fixpoint drop (n : nat) (s : string) : string :=
  match n, s with
  | S n', String _ s' => drop n' s'
  | _, _ => s
  end.

Definition len (s : string) : Z := Z.of_nat (String.length s).

(** [Decimal.__str__]: the scientific string of a finite number
    ([capitals=1] in the default context). *)
Definition Decimal_str (d : Decimal) : string :=
  let sign := if dsign d then "-" else "" in
  let int_ := str_nat (coef d) in
  let leftdigits := dexp d + len int_ in
  let dotplace := if (dexp d <=? 0) && (-6 <? leftdigits) then leftdigits else 1 in
  let intpart :=
    if dotplace <=? 0 then "0"
    else if len int_ <=? dotplace then int_ ++ zeros (dotplace - len int_)
    else take (Z.to_nat dotplace) int_ in
  let fracpart :=
    if dotplace <=? 0 then "." ++ zeros (- dotplace) ++ int_
    else if len int_ <=? dotplace then ""
    else "." ++ drop (Z.to_nat dotplace) int_ in
  let exp := if leftdigits =? dotplace then ""
             else "E" ++ format_signed (leftdigits - dotplace) in
  sign ++ intpart ++ fracpart ++ exp.

(** White space of [str.strip()] among the code points below 256. *)
Definition is_space (c : ascii) : bool :=
  let n := Z.of_N (N_of_ascii c) in
  ((9 <=? n) && (n <=? 13)) || ((28 <=? n) && (n <=? 32)) || (n =? 133) || (n =? 160).

Fixpoint lstrip (s : string) : string :=
  match s with
  | String c s' => if is_space c then lstrip s' else s
  | EmptyString => s
  end.

Fixpoint rstrip (s : string) : string :=
  match s with
  | String c s' =>
      match rstrip s' with
      | EmptyString => if is_space c then "" else String c ""
      | r => String c r
      end
  | EmptyString => ""
  end.

Definition strip (s : string) : string := rstrip (lstrip s).

(** [s.replace("_", "")]. *)
Fixpoint remove_underscores (s : string) : string :=
  match s with
  | String c s' =>
      if Ascii.eqb c "_" then remove_underscores s' else String c (remove_underscores s')
  | EmptyString => ""
  end.

(** The longest prefix of digits ([\d*]) and what follows it. *)
Fixpoint span_digits (s : string) : string * string :=
  match s with
  | String c s' =>
      if is_digit c then let '(ds, rest) := span_digits s' in (String c ds, rest)
      else ("", s)
  | EmptyString => ("", "")
  end.

(** [int(s)] for a string of digits, continuing the number [acc]. *)
Fixpoint int_of_digits (acc : Z) (s : string) : Z :=
  match s with
  | String c s' => int_of_digits (10 * acc + digit_val c) s'
  | EmptyString => acc
  end.

(** An optional sign [[-+]?]: whether it is a minus, and what follows. *)
Definition split_sign (s : string) : bool * string :=
  match s with
  | String c r => if Ascii.eqb c "-" then (true, r)
                  else if Ascii.eqb c "+" then (false, r) else (false, s)
  | EmptyString => (false, s)
  end.

(** The exponent part [(E[-+]?\d+)?] up to the end of the string (the
    pattern ignores case); [None] when what is left is neither empty nor an
    exponent. *)
Definition parse_exp (s : string) : option Z :=
  match s with
  | EmptyString => Some 0
  | String c r =>
      if Ascii.eqb c "E" || Ascii.eqb c "e" then
        let '(neg, r) := split_sign r in
        let '(ds, rest) := span_digits r in
        match ds, rest with
        | String _ _, EmptyString =>
            Some (if neg then - int_of_digits 0 ds else int_of_digits 0 ds)
        | _, _ => None
        end
      else None
  end.

(** [Decimal(value)] for a string: the finite number it denotes.  [None]
    stands for every other outcome: an infinity, a NaN, or a string that is
    no numeric literal. *)
Definition Decimal_new (value : string) : option Decimal :=
  let s := remove_underscores (strip value) in
  let '(sign, s) := split_sign s in
  let '(intpart, s) := span_digits s in
  let '(frac, s) :=
    match s with
    | String c r =>
        if Ascii.eqb c "." then let '(f, r') := span_digits r in (Some f, r')
        else (None, s)
    | EmptyString => (None, s)
    end in
  let fracpart := match frac with Some f => f | None => "" end in
  let lookahead :=
    match intpart with
    | String _ _ => true
    | EmptyString => match fracpart with String _ _ => true | EmptyString => false end
    end in
  if lookahead then
    match parse_exp s with
    | Some exp =>
        Some (mkDecimal sign (Z.to_N (int_of_digits 0 (intpart ++ fracpart)))
                        (exp - len fracpart))
    | None => None
    end
  else None.

(** Whether every character of a string satisfies a test. *)
Fixpoint all_chars (p : ascii -> bool) (s : string) : bool :=
  match s with
  | String c s' => p c && all_chars p s'
  | EmptyString => true
  end.

(** The characters of a numeric string. *)
Definition numeric_char (c : ascii) : bool :=
  is_digit c || Ascii.eqb c "-" || Ascii.eqb c "+" || Ascii.eqb c "." || Ascii.eqb c "E".

Definition starts_with_digit (s : string) : bool :=
  match s with
  | String c _ => is_digit c
  | EmptyString => false
  end.

(** The exponent part of a numeric string, left out when the exponent is
    zero. *)
Definition exp_string (z : Z) : string :=
  if z =? 0 then "" else "E" ++ format_signed z.

(** A numeric string: sign, digits of the integer part, an optional
    fractional part and the exponent. *)
Definition literal (neg : bool) (ip : string) (frac : option string) (z : Z) : string :=
  (if neg then "-" else "")
  ++ ip
  ++ match frac with Some fd => "." ++ fd | None => "" end
  ++ exp_string z.

End PyDecimalStr.

(** ** Python's [int(x)] for a string or an integer argument

    A string is read as a sequence of code points below 256.  [int] strips
    white space on both sides, accepts one sign, and then decimal digits in
    which single underscores may separate two digits.  A literal of more
    than 4300 digits is refused ([sys.int_info.default_max_str_digits]). *)
Module PyLong.

Definition is_space (c : ascii) : bool :=
  let n := Z.of_N (N_of_ascii c) in
  ((9 <=? n) && (n <=? 13)) || (n =? 32) || (n =? 133) || (n =? 160).

Definition digit_value (c : ascii) : option Z :=
  let n := Z.of_N (N_of_ascii c) in
  if (48 <=? n) && (n <=? 57) then Some (n - 48) else None.

Fixpoint skip_spaces (s : string) : string :=
  match s with
  | String c s' => if is_space c then skip_spaces s' else s
  | EmptyString => s
  end.

Fixpoint all_spaces (s : string) : bool :=
  match s with
  | String c s' => is_space c && all_spaces s'
  | EmptyString => true
  end.

(** Scan the digits that follow a digit: [acc] is the number read so far and
    [n] the count of its digits.  The answer carries what is left of the
    string; an underscore that is not followed by a digit is an error. *)
Fixpoint scan_digits (s : string) (acc n : Z) : option (Z * Z * string) :=
  match s with
  | String c s' =>
      match digit_value c with
      | Some d => scan_digits s' (10 * acc + d) (n + 1)
      | None =>
          if Ascii.eqb c "_"%char then
            match s' with
            | String c' s'' =>
                match digit_value c' with
                | Some d => scan_digits s'' (10 * acc + d) (n + 1)
                | None => None
                end
            | EmptyString => None
            end
          else Some (acc, n, s)
      end
  | EmptyString => Some (acc, n, s)
  end.

Definition max_str_digits : Z := 4300.

(** [int(s)] for a string [s]; [None] stands for [ValueError]. *)
Definition int_of_str (s : string) : option Z :=
  let s1 := skip_spaces s in
  let '(neg, s2) :=
    match s1 with
    | String c r => if Ascii.eqb c "-"%char then (true, r)
                    else if Ascii.eqb c "+"%char then (false, r) else (false, s1)
    | EmptyString => (false, s1)
    end in
  match s2 with
  | String c r =>
      match digit_value c with
      | Some d =>
          match scan_digits r d 1 with
          | Some (v, n, rest) =>
              if all_spaces rest && (n <=? max_str_digits)
              then Some (if neg then - v else v) else None
          | None => None
          end
      | None => None
      end
  | EmptyString => None
  end.

End PyLong.

(** ** The pandas operations used by the reconciliation

    A frame whose join columns are [Año] and [Mes] is a list of rows, each a
    key [(Año, Mes)] with the cells of its other columns. *)
Module Pandas.

Definition key : Type := Z * Z.

Definition key_eqb (a b : key) : bool := (fst a =? fst b) && (snd a =? snd b).

(** Lexicographic order on [(Año, Mes)]. *)
Definition key_ltb (a b : key) : bool :=
  (fst a <? fst b) || ((fst a =? fst b) && (snd a <? snd b)).

Definition key_leb (a b : key) : bool :=
  (fst a <? fst b) || ((fst a =? fst b) && (snd a <=? snd b)).

Definition key_lt (a b : key) : Prop := key_ltb a b = true.

(** The cells of the rows of [df] whose key is [k], in the order of [df]. *)
Definition matches {A : Type} (k : key) (df : list (key * A)) : list A :=
  map snd (filter (fun r => key_eqb (fst r) k) df).

(** What one side of a join contributes for a key: its matching cells, or
    one missing value (NaN) when nothing matches. *)
Definition side {A : Type} (ms : list A) : list (option A) :=
  match ms with
  | [] => [None]
  | _ => map Some ms
  end.

(** [pd.merge(left, right, on=[Año, Mes], how='left')] for a left frame
    that has the key columns only: the rows of [left] in their order, each
    repeated for every matching row of [right]. *)
Definition merge_left {A : Type} (left : list key) (right : list (key * A))
  : list (key * option A) :=
  flat_map (fun k => map (fun v => (k, v)) (side (matches k right))) left.

(** Insert a key into a strictly ascending list of keys. *)
Fixpoint insert_key (k : key) (l : list key) : list key :=
  match l with
  | [] => [k]
  | h :: t =>
      if key_ltb k h then k :: l
      else if key_eqb k h then l
      else h :: insert_key k t
  end.

(** The distinct keys of a list, in ascending order. *)
Definition sorted_keys (l : list key) : list key := fold_right insert_key [] l.

(** [pd.merge(left, right, on=[Año, Mes], how='outer')]: the union of the
    keys of both frames, sorted lexicographically; for each key the product
    of the matching rows of the two sides, the left side varying slowest. *)
Definition merge_outer {A B : Type} (left : list (key * A)) (right : list (key * B))
  : list (key * (option A * option B)) :=
  flat_map
    (fun k =>
       flat_map (fun x => map (fun y => (k, (x, y))) (side (matches k right)))
                (side (matches k left)))
    (sorted_keys (map fst left ++ map fst right)).

(** Insert a row after the rows with a smaller key and before those with an
    equal or larger one. *)
Fixpoint insert_row {A : Type} (x : key * A) (l : list (key * A)) : list (key * A) :=
  match l with
  | [] => [x]
  | h :: t => if key_leb (fst x) (fst h) then x :: l else h :: insert_row x t
  end.

(** [df.sort_values(by=[Año, Mes])]: with two sort columns pandas sorts
    with a stable lexicographic sort. *)
Definition sort_values {A : Type} (df : list (key * A)) : list (key * A) :=
  fold_right insert_row [] df.

(** The values a [Monto] cell can hold once missing values are filled: a
    [Decimal] of the source data, the integer put in by [fillna(0)] in an
    object column, or the float [0.0] put in by [fillna(0)] in a float64
    column (no other float arises). *)
Inductive cell : Type :=
  | CDecimal (d : PyDecimal.Decimal)
  | CInt (n : Z)
  | CFloatZero.

Definition isna {A : Type} (v : option A) : bool :=
  match v with None => true | Some _ => false end.

(** What [fillna(0)] makes of a [Monto] cell of a left merge: the filling
    is the float [0.0] in a float64 column and the integer [0] in an object
    column. *)
Definition fill_monto (float64 : bool) (v : option PyDecimal.Decimal) : cell :=
  match v with
  | Some d => CDecimal d
  | None => if float64 then CFloatZero else CInt 0
  end.

(** [df.infer_objects(copy=False).fillna(0)] on the result of a left merge.
    A [Monto] column that holds nothing but NaN is inferred as float64; a
    column with at least one [Decimal] stays an object column. *)
Definition infer_objects_fillna0 (df : list (key * option PyDecimal.Decimal))
  : list (key * cell) :=
  let float64 := forallb (fun r => isna (snd r)) df in
  map (fun r => (fst r, fill_monto float64 (snd r))) df.

Definition is_float (v : option cell) : bool :=
  match v with
  | Some (CDecimal _) | Some (CInt _) => false
  | Some CFloatZero | None => true
  end.

Definition fill (float64 : bool) (v : option cell) : cell :=
  match v with
  | Some c => c
  | None => if float64 then CFloatZero else CInt 0
  end.

(** [.fillna(0)] on the result of the outer merge, column by column: a
    float64 column is filled with [0.0], an object column with [0]. *)
Definition fillna0 (df : list (key * (option cell * option cell)))
  : list (key * (cell * cell)) :=
  let float64_l := forallb (fun r => is_float (fst (snd r))) df in
  let float64_r := forallb (fun r => is_float (snd (snd r))) df in
  map (fun r => (fst r, (fill float64_l (fst (snd r)), fill float64_r (snd (snd r))))) df.

End Pandas.

(** ** [create_sheet.py] *)

Import PyDecimal Pandas.

(** A row of a monthly query: columns [Año], [Mes], [Monto]. *)
Record MonthlyAggregate := mkAggregate {
  Anio  : Z;
  Mes   : Z;
  Monto : Decimal
}.

(** The frame of a monthly query: its rows, in order.  A frame of this
    type always has the three columns of the query, also when it has no
    row.  The frame without any column that [ejecutar_consulta] returns
    after a database error is not of this type; it is empty, and [main]
    does not pass empty frames on. *)
Definition DataFrame : Type := list MonthlyAggregate.

(** A row of the summary: columns [Año], [Mes], [Mes_Nombre],
    [Monto_Ingresos], [Monto_Egresos], [Balance], in that order.  A month
    without an entry in [meses_nombres] would get NaN as its name. *)
Record ResumenRow := mkResumen {
  res_Anio       : Z;
  res_Mes        : Z;
  Mes_Nombre     : option string;
  Monto_Ingresos : Decimal;
  Monto_Egresos  : Decimal;
  Balance        : Decimal
}.

(** The [anio] argument: [main] passes the text typed by the user; an
    integer is accepted as well. *)
Inductive PyValue : Type :=
  | PyStr (s : string)
  | PyInt (n : Z).

Inductive PyException : Type :=
  | ValueError.

(** [int(anio)]. *)
Definition int (anio : PyValue) : PyException + Z :=
  match anio with
  | PyInt n => inr n
  | PyStr s => match PyLong.int_of_str s with
               | Some n => inr n
               | None => inl ValueError
               end
  end.

(** [list(range(lo, hi))]. *)
Definition range (lo hi : Z) : list Z :=
  map (fun i => lo + Z.of_nat i) (seq 0 (Z.to_nat (hi - lo))).

Definition meses_nombres (mes : Z) : option string :=
  match mes with
  | 1 => Some "Enero"%string | 2 => Some "Febrero"%string
  | 3 => Some "Marzo"%string | 4 => Some "Abril"%string
  | 5 => Some "Mayo"%string | 6 => Some "Junio"%string
  | 7 => Some "Julio"%string | 8 => Some "Agosto"%string
  | 9 => Some "Septiembre"%string | 10 => Some "Octubre"%string
  | 11 => Some "Noviembre"%string | 12 => Some "Diciembre"%string
  | _ => None
  end.

(** [str(x)] for a filled cell [x]. *)
Definition str (x : cell) : string :=
  match x with
  | CDecimal d => PyDecimalStr.Decimal_str d
  | CInt n => PyDecimalStr.str_int n
  | CFloatZero => "0.0"
  end.

(** [Decimal(str(x))] for a filled cell [x]: the number that the
    constructor reads from [str x] ([Decimal_of_str_spec] below).  A
    [Decimal] comes back as it is, [0] as [Decimal('0')] and [0.0] as
    [Decimal('0.0')]. *)
Definition Decimal_of_str (x : cell) : Decimal :=
  match x with
  | CDecimal d => d
  | CInt n => mkDecimal (n <? 0) (Z.abs_N n) 0
  | CFloatZero => mkDecimal false 0 (-1)
  end.

(** The frame of a query result: key columns and the [Monto] cell. *)
Definition frame (df : DataFrame) : list (key * Decimal) :=
  map (fun r => ((Anio r, Mes r), Monto r)) df.

Definition empty (df : DataFrame) : bool :=
  match df with [] => true | _ => false end.

Definition advertencia : string :=
  "Advertencia: Los DataFrames de ingresos o egresos están vacíos".

(** [generar_resumen(df_ingresos, df_egresos, anio)].  The answer is what
    the call printed together with either the exception it raised or the
    summary frame it returned. *)
Definition generar_resumen (df_ingresos df_egresos : DataFrame) (anio : PyValue)
  : list string * (PyException + list ResumenRow) :=
  let printed :=
    if empty df_ingresos || empty df_egresos then [advertencia] else [] in
  match int anio with
  | inl e => (printed, inl e)
  | inr y =>
      let meses_completos := map (fun m => (y, m)) (range 1 13) in
      let df_ingresos_completo :=
        infer_objects_fillna0 (merge_left meses_completos (frame df_ingresos)) in
      let df_egresos_completo :=
        infer_objects_fillna0 (merge_left meses_completos (frame df_egresos)) in
      let df_resumen :=
        fillna0 (merge_outer df_ingresos_completo df_egresos_completo) in
      let df_resumen :=
        map (fun r => (fst r, (Decimal_of_str (fst (snd r)),
                               Decimal_of_str (snd (snd r))))) df_resumen in
      let df_resumen :=
        map (fun r => (fst r, (snd r, sub (fst (snd r)) (snd (snd r))))) df_resumen in
      let df_resumen := sort_values df_resumen in
      (printed,
       inr (map (fun r =>
                   mkResumen (fst (fst r)) (snd (fst r))
                             (meses_nombres (snd (fst r)))
                             (fst (fst (snd r))) (snd (fst (snd r)))
                             (snd (snd r)))
                df_resumen))
  end.

(** The part of [main] that decides whether the summary is generated: a
    query result is kept in [dataframes] only when it is not empty, and
    [generar_resumen] is called only when both monthly results were kept.
    [None] stands for a run without a summary sheet. *)
Definition main_resumen (ingresos_mensuales egresos_mensuales : DataFrame) (anio : string)
  : option (list string * (PyException + list ResumenRow)) :=
  if negb (empty ingresos_mensuales) && negb (empty egresos_mensuales)
  then Some (generar_resumen ingresos_mensuales egresos_mensuales (PyStr anio))
  else None.

(** ** Notions used in the statements *)

(** The summary frame of a call, or the exception it raised. *)
Definition resumen (df_ingresos df_egresos : DataFrame) (anio : PyValue)
  : PyException + list ResumenRow :=
  snd (generar_resumen df_ingresos df_egresos anio).

Definition res_key (r : ResumenRow) : key := (res_Anio r, res_Mes r).

(** A valid monthly aggregate for the year [y]: one row per (year, month),
    every row of the year [y] and of a month between 1 and 12. *)
Definition valid_dataset (y : Z) (df : DataFrame) : Prop :=
  NoDup (map fst (frame df)) /\
  Forall (fun r => Anio r = y /\ 1 <= Mes r <= 12) df.

(** A frame given key by key: for each key of [ks], in order, the rows
    whose cells are [f k]. *)
Definition grouped {A : Type} (f : key -> list A) (ks : list key) : list (key * A) :=
  flat_map (fun k => map (pair k) (f k)) ks.

(** A frame with a function applied to the cells of every row. *)
Definition map_cells {A B : Type} (g : A -> B) (df : list (key * A)) : list (key * B) :=
  map (fun r => (fst r, g (snd r))) df.

(** The amounts [df] has for the month [m] of the year [y]. *)
Definition amounts (y : Z) (df : DataFrame) (m : Z) : list Decimal :=
  matches (y, m) (frame df).

Definition no_amount (y : Z) (df : DataFrame) (m : Z) : bool :=
  match amounts y df m with [] => true | _ => false end.

(** The [Decimal] that stands for a gap of [df]: ['0.0'] when [df] has no
    amount for any month of the year, ['0'] otherwise. *)
Definition zero_fill (y : Z) (df : DataFrame) : Decimal :=
  Decimal_of_str
    (if forallb (no_amount y df) (range 1 13) then CFloatZero else CInt 0).

Definition month_amounts (y : Z) (df : DataFrame) (m : Z) : list Decimal :=
  match amounts y df m with
  | [] => [zero_fill y df]
  | ms => ms
  end.

(** The rows of the summary for the month [m]: one for every pair of an
    income amount and an expense amount of that month. *)
Definition month_rows (y : Z) (df_ingresos df_egresos : DataFrame) (m : Z)
  : list ResumenRow :=
  map (fun c => mkResumen y m (meses_nombres m) (fst c) (snd c) (sub (fst c) (snd c)))
      (list_prod (month_amounts y df_ingresos m) (month_amounts y df_egresos m)).




Definition is_zero_amount (d : Decimal) : Prop := value d == 0.

(** Every amount of the frame is a DECIMAL of the database. *)
Definition db_amounts (df : DataFrame) : Prop :=
  Forall (fun r => db_decimal (Monto r)) df.

(** ** Data of the worked examples *)

(** [Decimal('1500.50')], [Decimal('400.25')], [Decimal('100.00')]. *)
Definition d_1500_50 : Decimal := mkDecimal false 150050 (-2).
Definition d_400_25 : Decimal := mkDecimal false 40025 (-2).
Definition d_100_00 : Decimal := mkDecimal false 10000 (-2).

Definition ingresos_ejemplo : DataFrame := [mkAggregate 2024 3 d_1500_50].

Definition egresos_ejemplo : DataFrame :=
  [mkAggregate 2024 3 d_400_25; mkAggregate 2024 7 d_100_00].

(** A summary row whose month has no amount on either side of an example
    in which each side has some amount: both gaps are filled with [0]. *)
Definition fila_cero (y m : Z) : ResumenRow :=
  mkResumen y m (meses_nombres m)
            (mkDecimal false 0 0) (mkDecimal false 0 0) (mkDecimal false 0 0).


(** ** The rest of [create_sheet.py]

    [main] and [agregar_graficos], as far as their own logic goes.  The
    database, the workbook file and the console are outside: a query is
    represented by what it returned, a workbook by its sheets, and the
    keyboard by the lines that are typed. *)

(** *** Dictionaries with string keys *)

(** [d[k]] for a dictionary given by its items, in insertion order; [None]
    stands for a key that is not in [d] ([KeyError]). *)
Fixpoint dict_get {V : Type} (d : list (string * V)) (k : string) : option V :=
  match d with
  | [] => None
  | (k', v) :: d' => if String.eqb k k' then Some v else dict_get d' k
  end.

(** *** [main]: the level and the year *)

Definition newline : string := String (ascii_of_nat 10) EmptyString.

(** [print(x)] writes [x] and a newline. *)
Definition print (x : string) : string := (x ++ newline)%string.

Definition niveles_disponibles : list (string * string) :=
  [("1", "Inicial"); ("2", "Primaria"); ("3", "Secundaria"); ("4", "Terciario")]%string.

Definition niveles : list (string * Z) :=
  [("Inicial"%string, 1); ("Primaria"%string, 2);
   ("Secundaria"%string, 3); ("Terciario"%string, 4)].

Definition prompt_nivel : string := "Ingrese el número correspondiente al nivel: ".

Definition opcion_invalida : string :=
  "Opción inválida. Por favor, seleccione un número del 1 al 4.".

(** [input()] at the end of the typed lines. *)
Inductive InputException : Type :=
  | EOFError.

(** The [while True] loop of the menu.  [stdin] holds the lines that are
    typed; each [input(prompt)] writes the prompt and takes one line.  The
    answer is what was written, and either the exception or the level with
    the lines that are left. *)
Fixpoint elegir_nivel (stdin : list string)
  : list string * (InputException + string * list string) :=
  match stdin with
  | [] => ([prompt_nivel], inl EOFError)
  | nivel_opcion :: rest =>
      match dict_get niveles_disponibles nivel_opcion with
      | Some nivel => ([prompt_nivel], inr (nivel, rest))
      | None =>
          let '(written, r) := elegir_nivel rest in
          (prompt_nivel :: print opcion_invalida :: written, r)
      end
  end.


(** *** [agregar_graficos]: the charts of the summary sheet *)

(** [l.remove(x)]: the list without its first element [h] with [h == x];
    [None] stands for [ValueError], raised when there is none. *)
Fixpoint list_remove {A : Type} (eqb : A -> A -> bool) (x : A) (l : list A)
  : option (list A) :=
  match l with
  | [] => None
  | h :: t =>
      if eqb h x then Some t
      else match list_remove eqb x t with
           | Some t' => Some (h :: t')
           | None => None
           end
  end.

(** [for chart in charts: charts.remove(chart)] from the position [i] of the
    list iterator on, with at most [fuel] turns.  The iterator takes the
    element at its position in the list as it is at that moment and moves
    one position on; it stops at the end of the list. *)
Fixpoint remove_loop {A : Type} (eqb : A -> A -> bool) (fuel i : nat) (charts : list A)
  : option (list A) :=
  match fuel with
  | O => Some charts
  | S fuel' =>
      match nth_error charts i with
      | None => Some charts
      | Some chart =>
          match list_remove eqb chart charts with
          | Some charts' => remove_loop eqb fuel' (S i) charts'
          | None => None
          end
      end
  end.

(** The loop as the source runs it: from the first position.  Every turn
    takes one element away, so the length of the list is fuel enough. *)
Definition eliminar_graficos {A : Type} (eqb : A -> A -> bool) (charts : list A)
  : option (list A) :=
  remove_loop eqb (List.length charts) 0 charts.

(** The elements of a list at the second, fourth, ... place. *)
Fixpoint second_of_each_pair {A : Type} (l : list A) : list A :=
  match l with
  | _ :: b :: t => b :: second_of_each_pair t
  | _ => []
  end.

(** [Reference(ws, min_col, min_row, max_col, max_row)]; a [max_col] that
    is not given is [min_col]. *)
Record Reference := mkReference {
  min_col : Z;
  min_row : Z;
  max_col : Z;
  max_row : Z
}.

Inductive ChartType : Type :=
  | BarChart
  | LineChart.

(** A chart: its class, title, axis titles and style, the references given
    to [add_data] in order, the reference given to [set_categories], the
    marker set on every series and the anchor cell. *)
Record Chart := mkChart {
  chart_type   : ChartType;
  title        : string;
  y_axis_title : string;
  x_axis_title : string;
  style        : Z;
  data         : list Reference;
  categories   : Reference;
  marker       : string * Z;
  anchor       : string
}.

(** A sheet of a workbook: its title, the number of its last row and the
    charts attached to it.  Cells and styles are not represented. *)
Record Worksheet := mkWorksheet {
  ws_title   : string;
  ws_max_row : Z;
  charts     : list Chart
}.

Definition Workbook : Type := list Worksheet.

Definition sheetnames (wb : Workbook) : list string := map ws_title wb.

Definition es_resumen (ws : Worksheet) : bool := String.eqb (ws_title ws) "Resumen".

(** The bar chart of income and expense and the line chart of the balance
    that [agregar_graficos] builds for a sheet of [max_row] rows. *)
Definition categorias (max_row : Z) : Reference := mkReference 3 2 3 max_row.

Definition chart_bar (max_row : Z) : Chart :=
  mkChart BarChart "Ingresos vs Egresos por Mes" "Monto (ARS)" "Meses" 10
          [mkReference 4 1 4 max_row; mkReference 5 1 5 max_row]
          (categorias max_row) ("circle"%string, 8) "H2".

Definition chart_line (max_row : Z) : Chart :=
  mkChart LineChart "Evolución del Balance" "Monto (ARS)" "Meses" 13
          [mkReference 6 1 6 max_row]
          (categorias max_row) ("diamond"%string, 8) "H18".

(** The workbook with its sheet "Resumen" replaced by [ws']. *)
Fixpoint guardar_hoja (ws' : Worksheet) (wb : Workbook) : Workbook :=
  match wb with
  | [] => []
  | ws :: wb' => if es_resumen ws then ws' :: wb' else ws :: guardar_hoja ws' wb'
  end.

(** The body of [agregar_graficos] on the workbook that was loaded; [eqb]
    is the [==] of the chart objects.  Without a sheet "Resumen" the
    workbook is left as it is.  [None] stands for an exception, which the
    function catches and reports without saving. *)
Definition agregar_graficos (eqb : Chart -> Chart -> bool) (wb : Workbook)
  : option Workbook :=
  match find es_resumen wb with
  | None => Some wb
  | Some ws =>
      match eliminar_graficos eqb (charts ws) with
      | None => None
      | Some kept =>
          let max_row := ws_max_row ws in
          Some (guardar_hoja
                  (mkWorksheet (ws_title ws) (ws_max_row ws)
                               (kept ++ [chart_bar max_row; chart_line max_row]))
                  wb)
      end
  end.

(** *** [main]: the sheets of the workbook *)

(** The keys of [consultas]. *)
Inductive Consulta : Type :=
  | Ingresos
  | Egresos
  | Ingresos_Mensuales
  | Egresos_Mensuales
  | Matricula
  | Nomina_de_Estudiantes.

Definition nombre_hoja (c : Consulta) : string :=
  match c with
  | Ingresos => "Ingresos"
  | Egresos => "Egresos"
  | Ingresos_Mensuales => "Ingresos Mensuales"
  | Egresos_Mensuales => "Egresos Mensuales"
  | Matricula => "Matricula"
  | Nomina_de_Estudiantes => "Nomina de Estudiantes"
  end.

(** [consultas], in the order of the dictionary. *)
Definition consultas : list Consulta :=
  [Ingresos; Egresos; Ingresos_Mensuales; Egresos_Mensuales; Matricula;
   Nomina_de_Estudiantes].

(** What [ejecutar_consulta] answers to the six queries of a run: the
    number of rows of each listing and the frames of the two monthly
    queries.  A query that failed has no row. *)
Record Respuestas := mkRespuestas {
  r_Ingresos           : nat;
  r_Egresos            : nat;
  r_Ingresos_Mensuales : DataFrame;
  r_Egresos_Mensuales  : DataFrame;
  r_Matricula          : nat;
  r_Nomina             : nat
}.

(** [len(df)] for the answer to a query. *)
Definition len_df (db : Respuestas) (c : Consulta) : nat :=
  match c with
  | Ingresos => r_Ingresos db
  | Egresos => r_Egresos db
  | Ingresos_Mensuales => List.length (r_Ingresos_Mensuales db)
  | Egresos_Mensuales => List.length (r_Egresos_Mensuales db)
  | Matricula => r_Matricula db
  | Nomina_de_Estudiantes => r_Nomina db
  end.

(** The sheet that [to_excel(index=False)] writes for a frame of [filas]
    rows: a header row and the rows of the frame, no chart. *)
Definition hoja_de_datos (nombre : string) (filas : nat) : Worksheet :=
  mkWorksheet nombre (Z.of_nat filas + 1) [].

(** The sheet of [pd.DataFrame({"Mensaje": ["No hay datos disponibles"]})]. *)
Definition hoja_info : Worksheet := hoja_de_datos "Info" 1.

(** The loop over [consultas]: the state is the workbook of the writer,
    the keys of [dataframes] and the flag [hojas_escritas]. *)
Fixpoint escribir_consultas (db : Respuestas) (cs : list Consulta)
    (st : Workbook * list string * bool) : Workbook * list string * bool :=
  match cs with
  | [] => st
  | c :: cs' =>
      let '(libro, dataframes, hojas_escritas) := st in
      if Nat.eqb (len_df db c) 0
      then escribir_consultas db cs' st
      else escribir_consultas db cs'
             (libro ++ [hoja_de_datos (nombre_hoja c) (len_df db c)],
              dataframes ++ [nombre_hoja c], true)
  end.

(** [main] from the [with] block on, for the level and the year that were
    chosen: the workbook at the end of the run, or the exception that
    [generar_resumen] raised.  The writer starts a new workbook;
    [agregar_graficos] loads what the writer saved. *)
Definition main_libro (eqb : Chart -> Chart -> bool) (db : Respuestas) (anio : string)
  : PyException + Workbook :=
  let '(libro, dataframes, hojas_escritas) :=
    escribir_consultas db consultas ([], [], false) in
  let escrito :=
    if existsb (String.eqb "Ingresos Mensuales") dataframes
       && existsb (String.eqb "Egresos Mensuales") dataframes
    then
      match snd (generar_resumen (r_Ingresos_Mensuales db) (r_Egresos_Mensuales db)
                                 (PyStr anio)) with
      | inl e => inl e
      | inr df_resumen =>
          inr (libro ++ [hoja_de_datos "Resumen" (List.length df_resumen)], true)
      end
    else inr (libro, hojas_escritas) in
  match escrito with
  | inl e => inl e
  | inr (libro, hojas_escritas) =>
      if hojas_escritas
      then match agregar_graficos eqb libro with
           | Some libro' => inr libro'
           | None => inr libro
           end
      else inr (libro ++ [hoja_info])
  end.

(** Field by field equality of charts, for the examples. *)
Definition Reference_eqb (a b : Reference) : bool :=
  (min_col a =? min_col b) && (min_row a =? min_row b) &&
  (max_col a =? max_col b) && (max_row a =? max_row b).

Fixpoint list_eqb {A : Type} (eqb : A -> A -> bool) (l1 l2 : list A) : bool :=
  match l1, l2 with
  | [], [] => true
  | a :: l1', b :: l2' => eqb a b && list_eqb eqb l1' l2'
  | _, _ => false
  end.

Definition Chart_eqb (a b : Chart) : bool :=
  match chart_type a, chart_type b with
  | BarChart, BarChart | LineChart, LineChart => true
  | _, _ => false
  end &&
  String.eqb (title a) (title b) &&
  String.eqb (y_axis_title a) (y_axis_title b) &&
  String.eqb (x_axis_title a) (x_axis_title b) &&
  (style a =? style b) &&
  list_eqb Reference_eqb (data a) (data b) &&
  Reference_eqb (categories a) (categories b) &&
  String.eqb (fst (marker a)) (fst (marker b)) &&
  (snd (marker a) =? snd (marker b)) &&
  String.eqb (anchor a) (anchor b).

(** The sheets of the queries that returned rows, in the order of
    [consultas]. *)
Definition con_filas (db : Respuestas) (c : Consulta) : bool :=
  negb (Nat.eqb (len_df db c) 0).

Definition hojas_consultas (db : Respuestas) : Workbook :=
  map (fun c => hoja_de_datos (nombre_hoja c) (len_df db c))
      (filter (con_filas db) consultas).

(** * Facts about the library models *)

(** ** Decimal arithmetic *)
Module PyDecimalFacts.

Lemma pow10_pos k : 0 <= k -> 0 < 10 ^ k.
Proof. intros; apply Z.pow_pos_nonneg; lia. Qed.

Lemma pow10_le a b : 0 <= a <= b -> 10 ^ a <= 10 ^ b.
Proof. intros; apply Z.pow_le_mono_r; lia. Qed.

Lemma pow10_lt_inv a b : 0 <= a -> 0 <= b -> 10 ^ a < 10 ^ b -> a < b.
Proof. intros Ha Hb H. apply (Z.pow_lt_mono_r_iff 10); lia. Qed.

Lemma pow10_succ k : 0 <= k -> 10 ^ (k + 1) = 10 * 10 ^ k.
Proof. intros; rewrite Z.pow_add_r by lia; lia. Qed.

Lemma ndigits_fuel_pos fuel n : 1 <= ndigits_fuel fuel n.
Proof.
  revert n; induction fuel as [|f IH]; intros n; cbn [ndigits_fuel]; [lia|].
  destruct (n <? 10); [lia|]. specialize (IH (n / 10)). lia.
Qed.

Lemma ndigits_fuel_spec fuel : forall n,
  0 < n < 2 ^ Z.of_nat fuel ->
  10 ^ (ndigits_fuel fuel n - 1) <= n < 10 ^ ndigits_fuel fuel n.
Proof.
  induction fuel as [|f IH]; intros n Hn.
  - simpl in Hn. lia.
  - cbn [ndigits_fuel]. destruct (Z.ltb_spec n 10) as [Hlt|Hge].
    + simpl. lia.
    + assert (Hq : 0 < n / 10 < 2 ^ Z.of_nat f).
      { rewrite Nat2Z.inj_succ, Z.pow_succ_r in Hn by lia.
        split.
        - apply Z.div_str_pos; lia.
        - apply Z.div_lt_upper_bound; lia. }
      specialize (IH _ Hq).
      pose proof (ndigits_fuel_pos f (n / 10)) as Hp.
      set (d := ndigits_fuel f (n / 10)) in *.
      replace (1 + d - 1) with ((d - 1) + 1) by lia.
      replace (1 + d) with (d + 1) by lia.
      rewrite !pow10_succ by lia.
      pose proof (Z.div_mod n 10 ltac:(lia)) as Hdm.
      pose proof (Z.mod_pos_bound n 10 ltac:(lia)) as Hm.
      lia.
Qed.

Lemma ndigits_pos n : 1 <= ndigits n.
Proof. apply ndigits_fuel_pos. Qed.

Lemma ndigits_spec n : 0 < n -> 10 ^ (ndigits n - 1) <= n < 10 ^ ndigits n.
Proof.
  intros Hn. apply ndigits_fuel_spec. split; [lia|].
  rewrite Nat2Z.inj_succ, Z2Nat.id by apply Z.log2_nonneg.
  apply Z.log2_spec; lia.
Qed.

Lemma ndigits_le n k : 0 < n < 10 ^ k -> ndigits n <= k.
Proof.
  intros [Hn Hk]. pose proof (ndigits_spec n Hn) as [Hlo _].
  pose proof (ndigits_pos n).
  assert (0 <= k). { destruct (Z.ltb_spec k 0); [|lia]. rewrite Z.pow_neg_r in Hk; lia. }
  assert (ndigits n - 1 < k); [|lia].
  apply pow10_lt_inv; lia.
Qed.

Lemma ndigits_ge n k : 0 <= k -> 10 ^ k <= n -> k < ndigits n.
Proof.
  intros Hk Hn. pose proof (pow10_pos k Hk).
  pose proof (ndigits_spec n ltac:(lia)) as [_ Hhi].
  pose proof (ndigits_pos n).
  apply pow10_lt_inv; lia.
Qed.


Lemma coef_nonneg d : 0 <= coef d.
Proof. unfold coef; lia. Qed.

Lemma is_zero_true d : is_zero d = true <-> coef d = 0.
Proof. unfold is_zero; apply Z.eqb_eq. Qed.

Lemma is_zero_false d : is_zero d = false <-> 0 < coef d.
Proof. unfold is_zero; rewrite Z.eqb_neq; pose proof (coef_nonneg d); lia. Qed.

(** A coefficient that fits the precision is left alone by [_fix]. *)
Lemma fix_small d : coef d < 10 ^ prec -> fix_ d = d.
Proof.
  intros Hd. unfold fix_.
  destruct (is_zero d) eqn:Hz; [reflexivity|].
  apply is_zero_false in Hz.
  assert (Hl : ndigits (coef d) <= prec) by (apply ndigits_le; lia).
  destruct (Z.ltb_spec (dexp d) (ndigits (coef d) + dexp d - prec)); [lia|reflexivity].
Qed.

Lemma fix_small_mk s c e : 0 <= c < 10 ^ prec -> fix_ (mkDecimal s (Z.to_N c) e) = mkDecimal s (Z.to_N c) e.
Proof. intros H. apply fix_small. unfold coef; cbn [dint]. rewrite Z2N.id; lia. Qed.

(** When the exact result fits the precision, [_normalize] does not replace
    the smaller operand. *)
Lemma normalize_keeps ct et co eo :
  0 < ct -> 0 < co -> eo <= et ->
  ct * 10 ^ (et - eo) - co < 10 ^ prec ->
  (ndigits co + eo - 1 <? et + Z.min (-1) (ndigits ct - prec - 2)) = false.
Proof.
  intros Hct Hco He Hfit.
  destruct (Z.ltb_spec (ndigits co + eo - 1) (et + Z.min (-1) (ndigits ct - prec - 2)))
    as [Hc|]; [exfalso|reflexivity].
  pose proof (ndigits_pos co) as Hol. pose proof (ndigits_pos ct) as Htl.
  pose proof (ndigits_spec co Hco) as [_ Hco'].
  pose proof (ndigits_spec ct Hct) as [Hct' _].
  set (ol := ndigits co) in *. set (tl := ndigits ct) in *.
  set (d := et - eo) in *. unfold prec in *.
  assert (Hd1 : ol <= d - 1) by lia.
  assert (Hd2 : ol <= d + tl - 30) by lia.
  set (P := 10 ^ (tl + d - 2)).
  assert (HP : 10 ^ 29 <= P) by (apply pow10_le; lia).
  assert (H1 : 10 ^ (tl - 1) * 10 ^ d = 10 * P).
  { unfold P. rewrite <- Z.pow_add_r by lia.
    replace (tl - 1 + d) with ((tl + d - 2) + 1) by lia. apply pow10_succ; lia. }
  assert (H2 : 10 ^ ol <= P) by (apply pow10_le; lia).
  assert (H3 : 10 ^ (tl - 1) * 10 ^ d <= ct * 10 ^ d).
  { apply Z.mul_le_mono_nonneg_r; [|lia]. pose proof (pow10_pos d ltac:(lia)); lia. }
  assert (H28 : 10 ^ 28 < 10 ^ 29) by (apply Z.pow_lt_mono_r; lia).
  lia.
Qed.

Lemma normalize_aligned a b :
  0 < coef a -> 0 < coef b ->
  Z.abs (aligned a (Z.min (dexp a) (dexp b)) + aligned b (Z.min (dexp a) (dexp b))) < 10 ^ prec ->
  normalize (work a) (work b) =
    (mkWork (dsign a) (coef a * 10 ^ (dexp a - Z.min (dexp a) (dexp b))) (Z.min (dexp a) (dexp b)),
     mkWork (dsign b) (coef b * 10 ^ (dexp b - Z.min (dexp a) (dexp b))) (Z.min (dexp a) (dexp b))).
Proof.
  intros Ha Hb Hfit. unfold normalize, work, aligned, sval in *. cbn [wsign wint wexp].
  destruct (Z.ltb_spec (dexp a) (dexp b)) as [Hlt|Hge].
  - assert (Hm : Z.min (dexp a) (dexp b) = dexp a) by lia. rewrite Hm in *.
    rewrite Z.sub_diag, Z.pow_0_r, Z.mul_1_r in *.
    pose proof (pow10_pos (dexp b - dexp a) ltac:(lia)) as Hp.
    cbn [wsign wint wexp]. rewrite normalize_keeps; try lia.
    + reflexivity.
    + destruct (dsign a), (dsign b); nia.
  - assert (Hm : Z.min (dexp a) (dexp b) = dexp b) by lia. rewrite Hm in *.
    rewrite Z.sub_diag, Z.pow_0_r, Z.mul_1_r in *.
    pose proof (pow10_pos (dexp a - dexp b) ltac:(lia)) as Hp.
    cbn [wsign wint wexp]. rewrite normalize_keeps; try lia.
    + reflexivity.
    + destruct (dsign a), (dsign b); nia.
Qed.

(** [__add__] is exact whenever the sum, written at the smaller of the two
    exponents, has at most [prec] digits. *)
Theorem add_exact a b :
  let e := Z.min (dexp a) (dexp b) in
  Z.abs (aligned a e + aligned b e) < 10 ^ prec ->
  dexp (add a b) = e /\ sval (add a b) = aligned a e + aligned b e.
Proof.
  intros e Hfit. unfold add. fold e.
  destruct (is_zero a) eqn:Hza; destruct (is_zero b) eqn:Hzb; cbn [andb].
  - apply is_zero_true in Hza, Hzb.
    assert (Ha0 : aligned a e = 0) by (unfold aligned, sval; rewrite Hza; destruct (dsign a); reflexivity).
    assert (Hb0 : aligned b e = 0) by (unfold aligned, sval; rewrite Hzb; destruct (dsign b); reflexivity).
    rewrite Ha0, Hb0.
    rewrite fix_small by (unfold coef; simpl; reflexivity).
    split; [reflexivity|]. unfold sval, coef; cbn [dsign dint].
    destruct (dsign a && dsign b); reflexivity.
  - apply is_zero_true in Hza. apply is_zero_false in Hzb.
    assert (Ha0 : aligned a e = 0) by (unfold aligned, sval; rewrite Hza; destruct (dsign a); reflexivity).
    rewrite Ha0, Z.add_0_l in *.
    assert (He : e <= dexp b) by (unfold e; lia).
    pose proof (pow10_pos (dexp b - e) ltac:(lia)) as Hp.
    assert (Habs : Z.abs (aligned b e) = coef b * 10 ^ (dexp b - e)).
    { unfold aligned, sval. destruct (dsign b); nia. }
    assert (Hlt : dexp b - e < prec).
    { apply pow10_lt_inv; try lia; unfold prec; try lia. fold prec. nia. }
    rewrite Z.max_l by (unfold prec in *; lia).
    unfold rescale. apply is_zero_false in Hzb as Hzb'. rewrite Hzb'.
    destruct (Z.leb_spec e (dexp b)); [|lia].
    rewrite fix_small_mk by nia.
    unfold aligned, sval, coef; cbn [dexp dsign dint]. rewrite Z2N.id by (unfold coef in *; nia).
    split; [reflexivity|]. destruct (dsign b); fold (coef b); lia.
  - apply is_zero_true in Hzb. apply is_zero_false in Hza.
    assert (Hb0 : aligned b e = 0) by (unfold aligned, sval; rewrite Hzb; destruct (dsign b); reflexivity).
    rewrite Hb0, Z.add_0_r in *.
    assert (He : e <= dexp a) by (unfold e; lia).
    pose proof (pow10_pos (dexp a - e) ltac:(lia)) as Hp.
    assert (Habs : Z.abs (aligned a e) = coef a * 10 ^ (dexp a - e)).
    { unfold aligned, sval. destruct (dsign a); nia. }
    assert (Hlt : dexp a - e < prec).
    { apply pow10_lt_inv; try lia; unfold prec; try lia. fold prec. nia. }
    rewrite Z.max_l by (unfold prec in *; lia).
    unfold rescale. apply is_zero_false in Hza as Hza'. rewrite Hza'.
    destruct (Z.leb_spec e (dexp a)); [|lia].
    rewrite fix_small_mk by nia.
    unfold aligned, sval, coef; cbn [dexp dsign dint]. rewrite Z2N.id by (unfold coef in *; nia).
    split; [reflexivity|]. destruct (dsign a); fold (coef a); lia.
  - apply is_zero_false in Hza, Hzb.
    rewrite (normalize_aligned a b Hza Hzb Hfit). fold e. cbn [wsign wint wexp].
    assert (Hea : e <= dexp a) by (unfold e; lia).
    assert (Heb : e <= dexp b) by (unfold e; lia).
    pose proof (pow10_pos (dexp a - e) ltac:(lia)) as Hpa.
    pose proof (pow10_pos (dexp b - e) ltac:(lia)) as Hpb.
    unfold aligned, sval in *.
    set (A := coef a * 10 ^ (dexp a - e)) in *.
    set (B := coef b * 10 ^ (dexp b - e)) in *.
    assert (HA : 0 < A) by (unfold A; nia).
    assert (HB : 0 < B) by (unfold B; nia).
    destruct (dsign a) eqn:Hsa; destruct (dsign b) eqn:Hsb; cbn [Bool.eqb negb];
      rewrite ?Z.mul_opp_l in *; fold A B in Hfit |- *.
    + rewrite fix_small_mk by lia. unfold coef; cbn [dexp dsign dint].
      rewrite Z2N.id by lia. split; [reflexivity|lia].
    + destruct (Z.eqb_spec A B) as [Heq|Hne].
      * rewrite fix_small by (unfold coef; simpl; reflexivity).
        unfold coef; cbn [dexp dsign dint]. split; [reflexivity|simpl; lia].
      * destruct (Z.ltb_spec A B); cbn [wsign wint wexp];
          rewrite fix_small_mk by lia; unfold coef; cbn [dexp dsign dint];
          rewrite Z2N.id by lia; (split; [reflexivity|lia]).
    + destruct (Z.eqb_spec A B) as [Heq|Hne].
      * rewrite fix_small by (unfold coef; simpl; reflexivity).
        unfold coef; cbn [dexp dsign dint]. split; [reflexivity|simpl; lia].
      * destruct (Z.ltb_spec A B); cbn [wsign wint wexp];
          rewrite fix_small_mk by lia; unfold coef; cbn [dexp dsign dint];
          rewrite Z2N.id by lia; (split; [reflexivity|lia]).
    + rewrite fix_small_mk by lia. unfold coef; cbn [dexp dsign dint].
      rewrite Z2N.id by lia. split; [reflexivity|lia].
Qed.


Lemma aligned_copy_negate b e : aligned (copy_negate b) e = - aligned b e.
Proof.
  unfold aligned, sval, copy_negate, coef; cbn [dsign dint dexp].
  destruct (dsign b); cbn [negb]; lia.
Qed.

(** [__sub__] is exact whenever the difference, written at the smaller of
    the two exponents, has at most [prec] digits. *)
Theorem sub_exact a b :
  let e := Z.min (dexp a) (dexp b) in
  Z.abs (aligned a e - aligned b e) < 10 ^ prec ->
  dexp (sub a b) = e /\ sval (sub a b) = aligned a e - aligned b e.
Proof.
  intros e Hfit. unfold sub.
  pose proof (add_exact a (copy_negate b)) as H. cbn [copy_negate dexp] in H.
  fold e in H. rewrite aligned_copy_negate in H.
  apply H. replace (aligned a e + - aligned b e) with (aligned a e - aligned b e) by lia.
  exact Hfit.
Qed.



Lemma value_zero d : coef d = 0 -> value d == 0.
Proof.
  intros H. unfold value, sval. rewrite H. destruct (dsign d); cbn [Z.opp]; apply Qmult_0_l.
Qed.

Lemma sub_zero a b : coef a = 0 -> coef b = 0 -> coef (sub a b) = 0.
Proof.
  intros Ha Hb.
  assert (H0 : forall d e, coef d = 0 -> aligned d e = 0).
  { intros d e H. unfold aligned, sval. rewrite H. destruct (dsign d); reflexivity. }
  destruct (sub_exact a b) as [_ Hs].
  - rewrite !H0 by assumption. reflexivity.
  - rewrite !H0 in Hs by assumption. unfold sval in Hs.
    destruct (dsign (sub a b)); lia.
Qed.

(** *** The exponent limits are out of reach of database decimals *)

Lemma pow10_lt a b : 0 <= a < b -> 10 ^ a < 10 ^ b.
Proof. intros; apply Z.pow_lt_mono_r; lia. Qed.

Lemma fix_context_moderate d : moderate d -> fix_context d = inr (fix_ d).
Proof.
  intros [Hc He]. unfold fix_context, fix_.
  destruct (is_zero d) eqn:Hz.
  - apply is_zero_true in Hz. f_equal.
    unfold Etiny, Emin, Emax, prec.
    replace (Z.min (Z.max (dexp d) (-999999 - 28 + 1)) 999999) with (dexp d) by lia.
    destruct d as [s c e]; unfold coef in Hz; cbn [dint dsign dexp] in *.
    f_equal. lia.
  - apply is_zero_false in Hz.
    pose proof (ndigits_pos (coef d)) as Hl1.
    assert (Hl2 : ndigits (coef d) <= 100) by (apply ndigits_le; lia).
    unfold Etop, Etiny, Emax, Emin, prec in *.
    destruct (Z.ltb_spec (999999 - 28 + 1) (ndigits (coef d) + dexp d - 28)); [lia|].
    destruct (Z.ltb_spec (ndigits (coef d) + dexp d - 28) (-999999 - 28 + 1)); [lia|].
    destruct (Z.ltb_spec (dexp d) (ndigits (coef d) + dexp d - 28)); [|reflexivity].
    replace (ndigits (coef d) + dexp d - (ndigits (coef d) + dexp d - 28)) with 28 by lia.
    cbn [Z.ltb Z.compare Z.eqb]. cbv beta iota.
    remember (ndigits (coef d)) as len eqn:Hlen. clear Hlen.
    destruct (0 <? round_half_even (coef d) (len - 28)).
    + destruct (28 <? ndigits (coef d / 10 ^ (len - 28) + 1)).
      * destruct (Z.ltb_spec (999999 - 28 + 1) (len + dexp d - 28 + 1)); [lia|reflexivity].
      * destruct (Z.ltb_spec (999999 - 28 + 1) (len + dexp d - 28)); [lia|reflexivity].
    + destruct (Z.ltb_spec (999999 - 28 + 1) (len + dexp d - 28)); [lia|reflexivity].
Qed.

Lemma moderate_mk s c e :
  0 <= c < 10 ^ 100 -> -100 <= e <= 100 -> moderate (mkDecimal s (Z.to_N c) e).
Proof.
  intros Hc He. unfold moderate, coef; cbn [dint dexp]. rewrite Z2N.id by lia. lia.
Qed.

Lemma scaled_bound c k : 0 <= c < 10 ^ 65 -> 0 <= k <= 30 -> 0 <= c * 10 ^ k < 10 ^ 95.
Proof.
  intros Hc Hk.
  pose proof (pow10_pos k ltac:(lia)) as Hp.
  pose proof (pow10_le k 30 ltac:(lia)) as Hle.
  assert (H95 : 10 ^ 95 = 10 ^ 65 * 10 ^ 30) by reflexivity.
  rewrite H95. nia.
Qed.

Lemma normalize_bounds a b :
  0 < coef a -> 0 < coef b -> db_decimal a -> db_decimal b ->
  0 < wint (fst (normalize (work a) (work b))) < 10 ^ 95 /\
  0 < wint (snd (normalize (work a) (work b))) < 10 ^ 95 /\
  wexp (fst (normalize (work a) (work b))) = wexp (snd (normalize (work a) (work b))) /\
  -60 <= wexp (fst (normalize (work a) (work b))) <= 0.
Proof.
  intros Ha Hb [Hca Hea] [Hcb Heb].
  assert (H65 : 10 ^ 65 < 10 ^ 95) by (apply pow10_lt; lia).
  pose proof (ndigits_pos (coef a)) as Hla. pose proof (ndigits_pos (coef b)) as Hlb.
  unfold normalize, work. cbn [wsign wint wexp].
  destruct (dexp a <? dexp b) eqn:Hswap; cbn [wsign wint wexp];
    match goal with
    | |- context [if ?c then _ else _] => destruct c eqn:Hrep
    end; cbn [fst snd wsign wint wexp]; unfold prec in *;
    [ apply Z.ltb_lt in Hswap | apply Z.ltb_lt in Hswap
    | apply Z.ltb_ge in Hswap | apply Z.ltb_ge in Hswap ].
  - pose proof (scaled_bound (coef b) (dexp b - (dexp b + Z.min (-1) (ndigits (coef b) - 28 - 2)))
                  ltac:(lia) ltac:(lia)).
    pose proof (pow10_pos (dexp b - (dexp b + Z.min (-1) (ndigits (coef b) - 28 - 2))) ltac:(lia)).
    repeat split; try lia; try nia.
  - pose proof (scaled_bound (coef b) (dexp b - dexp a) ltac:(lia) ltac:(lia)).
    pose proof (pow10_pos (dexp b - dexp a) ltac:(lia)).
    repeat split; try lia; try nia.
  - pose proof (scaled_bound (coef a) (dexp a - (dexp a + Z.min (-1) (ndigits (coef a) - 28 - 2)))
                  ltac:(lia) ltac:(lia)).
    pose proof (pow10_pos (dexp a - (dexp a + Z.min (-1) (ndigits (coef a) - 28 - 2))) ltac:(lia)).
    repeat split; try lia; try nia.
  - pose proof (scaled_bound (coef a) (dexp a - dexp b) ltac:(lia) ltac:(lia)).
    pose proof (pow10_pos (dexp a - dexp b) ltac:(lia)).
    repeat split; try lia; try nia.
Qed.

Lemma db_decimal_copy_negate b : db_decimal b -> db_decimal (copy_negate b).
Proof. intros H; exact H. Qed.

(** On decimals of the database the exponent limits are never reached:
    [__add__] and [__sub__] raise nothing and answer what [add] and [sub]
    answer. *)
Lemma add_context_db a b :
  db_decimal a -> db_decimal b -> add_context a b = inr (add a b).
Proof.
  intros Da Db. pose proof Da as [Hca Hea]. pose proof Db as [Hcb Heb].
  assert (H95 : 10 ^ 95 < 10 ^ 100) by (apply pow10_lt; lia).
  assert (H95' : 2 * 10 ^ 95 < 10 ^ 100) by (vm_compute; reflexivity).
  unfold add_context, add.
  destruct (is_zero a) eqn:Hza; destruct (is_zero b) eqn:Hzb; cbn [andb].
  - apply fix_context_moderate. apply (moderate_mk _ 0); [|lia].
    pose proof (pow10_pos 100 ltac:(lia)); lia.
  - apply fix_context_moderate. apply is_zero_false in Hzb.
    unfold rescale. apply is_zero_false in Hzb as Hzb'. rewrite Hzb'.
    destruct (Z.leb_spec (Z.max (Z.min (dexp a) (dexp b)) (dexp b - prec - 1)) (dexp b));
      [|unfold prec in *; lia].
    apply moderate_mk; [|unfold prec in *; lia].
    pose proof (scaled_bound (coef b)
                  (dexp b - Z.max (Z.min (dexp a) (dexp b)) (dexp b - prec - 1))
                  ltac:(lia) ltac:(unfold prec in *; lia)). lia.
  - apply fix_context_moderate. apply is_zero_false in Hza.
    unfold rescale. apply is_zero_false in Hza as Hza'. rewrite Hza'.
    destruct (Z.leb_spec (Z.max (Z.min (dexp a) (dexp b)) (dexp a - prec - 1)) (dexp a));
      [|unfold prec in *; lia].
    apply moderate_mk; [|unfold prec in *; lia].
    pose proof (scaled_bound (coef a)
                  (dexp a - Z.max (Z.min (dexp a) (dexp b)) (dexp a - prec - 1))
                  ltac:(lia) ltac:(unfold prec in *; lia)). lia.
  - apply is_zero_false in Hza, Hzb.
    pose proof (normalize_bounds a b Hza Hzb Da Db) as [H1 [H2 [He He']]].
    destruct (normalize (work a) (work b)) as [op1 op2]. cbn [fst snd] in *.
    destruct (negb (Bool.eqb (wsign op1) (wsign op2))).
    + destruct (wint op1 =? wint op2).
      * apply fix_context_moderate. apply (moderate_mk _ 0); [|lia].
        pose proof (pow10_pos 100 ltac:(lia)); lia.
      * destruct (Z.ltb_spec (wint op1) (wint op2));
          apply fix_context_moderate; apply moderate_mk; lia.
    + apply fix_context_moderate; apply moderate_mk; lia.
Qed.

Theorem sub_context_db a b :
  db_decimal a -> db_decimal b -> sub_context a b = inr (sub a b).
Proof. intros Da Db. apply add_context_db; [exact Da|exact (db_decimal_copy_negate b Db)]. Qed.

End PyDecimalFacts.

(** ** Strings of decimals *)
Module PyDecimalStrFacts.

Import PyDecimalStr PyDecimalFacts.
Local Open Scope string_scope.
Local Open Scope Z_scope.

Lemma append_nil_r (s : string) : s ++ "" = s.
Proof. induction s as [|c s IH]; [reflexivity|]. cbn [append]. rewrite IH. reflexivity. Qed.

Lemma append_assoc (a b c : string) : (a ++ b) ++ c = a ++ (b ++ c).
Proof. induction a as [|x a IH]; [reflexivity|]. cbn [append]. rewrite IH. reflexivity. Qed.

Lemma len_append (a b : string) : len (a ++ b) = len a + len b.
Proof.
  unfold len. induction a as [|x a IH]; [cbn; lia|].
  cbn [append String.length]. rewrite !Nat2Z.inj_succ. lia.
Qed.

Lemma len_nonneg (s : string) : 0 <= len s.
Proof. unfold len; lia. Qed.

Lemma all_chars_append p a b : all_chars p (a ++ b) = all_chars p a && all_chars p b.
Proof.
  induction a as [|x a IH]; [reflexivity|].
  cbn [append all_chars]. rewrite IH, andb_assoc. reflexivity.
Qed.

Lemma all_chars_impl (p q : ascii -> bool) s :
  (forall c, p c = true -> q c = true) -> all_chars p s = true -> all_chars q s = true.
Proof.
  intros Hpq. induction s as [|c s IH]; [reflexivity|].
  cbn [all_chars]. rewrite !andb_true_iff. intros [Hc Hs]. auto.
Qed.

(** *** Digits *)

Lemma digit_cases d : 0 <= d <= 9 ->
  d = 0 \/ d = 1 \/ d = 2 \/ d = 3 \/ d = 4 \/ d = 5 \/ d = 6 \/ d = 7 \/ d = 8 \/ d = 9.
Proof. lia. Qed.

Lemma is_digit_digit_char d : 0 <= d <= 9 -> is_digit (digit_char d) = true.
Proof. intros H. destruct (digit_cases d H) as [->|[->|[->|[->|[->|[->|[->|[->|[->| ->]]]]]]]]]; reflexivity. Qed.

Lemma digit_val_digit_char d : 0 <= d <= 9 -> digit_val (digit_char d) = d.
Proof. intros H. destruct (digit_cases d H) as [->|[->|[->|[->|[->|[->|[->|[->|[->| ->]]]]]]]]]; reflexivity. Qed.

Lemma int_of_digits_append acc a b :
  int_of_digits acc (a ++ b) = int_of_digits (int_of_digits acc a) b.
Proof. revert acc; induction a as [|c a IH]; intros acc; [reflexivity|]. cbn [append int_of_digits]. apply IH. Qed.

Lemma str_nat_fuel_digits fuel n : 0 <= n -> all_chars is_digit (str_nat_fuel fuel n) = true.
Proof.
  revert n; induction fuel as [|f IH]; intros n Hn; [reflexivity|].
  cbn [str_nat_fuel]. rewrite all_chars_append. apply andb_true_iff. split.
  - destruct (n <? 10); [reflexivity|]. apply IH. apply Z.div_pos; lia.
  - cbn [all_chars]. rewrite is_digit_digit_char; [reflexivity|].
    pose proof (Z.mod_pos_bound n 10 ltac:(lia)); lia.
Qed.

Lemma str_nat_fuel_value fuel : forall n,
  0 <= n < 2 ^ Z.of_nat fuel -> int_of_digits 0 (str_nat_fuel fuel n) = n.
Proof.
  induction fuel as [|f IH]; intros n Hn.
  - cbn in Hn. assert (n = 0) by lia. subst. reflexivity.
  - cbn [str_nat_fuel]. rewrite int_of_digits_append. cbn [int_of_digits].
    pose proof (Z.mod_pos_bound n 10 ltac:(lia)) as Hm.
    rewrite digit_val_digit_char by lia.
    pose proof (Z.div_mod n 10 ltac:(lia)) as Hdm.
    destruct (Z.ltb_spec n 10) as [Hlt|Hge].
    + cbn [int_of_digits]. rewrite Z.mod_small by lia. lia.
    + rewrite IH; [lia|].
      rewrite Nat2Z.inj_succ, Z.pow_succ_r in Hn by lia.
      split; [apply Z.div_pos; lia|apply Z.div_lt_upper_bound; lia].
Qed.

Lemma str_nat_digits n : 0 <= n -> all_chars is_digit (str_nat n) = true.
Proof. apply str_nat_fuel_digits. Qed.

Lemma str_nat_value n : 0 <= n -> int_of_digits 0 (str_nat n) = n.
Proof.
  intros Hn. apply str_nat_fuel_value. split; [exact Hn|].
  rewrite Nat2Z.inj_succ, Z2Nat.id by apply Z.log2_nonneg.
  destruct (Z.eq_dec n 0) as [->|Hne]; [reflexivity|].
  apply Z.log2_spec; lia.
Qed.

Lemma str_nat_nonempty n : str_nat n <> "".
Proof.
  unfold str_nat. cbn [str_nat_fuel].
  destruct (if n <? 10 then "" else _); discriminate.
Qed.

Lemma len_str_nat_pos n : 1 <= len (str_nat n).
Proof.
  pose proof (str_nat_nonempty n) as H. unfold len.
  destruct (str_nat n); [congruence|]. cbn [String.length]. lia.
Qed.


(** *** Scanning *)

Lemma span_digits_append ds rest :
  all_chars is_digit ds = true -> starts_with_digit rest = false ->
  span_digits (ds ++ rest) = (ds, rest).
Proof.
  intros Hd Hr. induction ds as [|c ds IH].
  - cbn [append]. destruct rest as [|c r]; [reflexivity|].
    cbn [span_digits starts_with_digit] in *. rewrite Hr. reflexivity.
  - cbn [all_chars] in Hd. apply andb_true_iff in Hd as [Hc Hds].
    cbn [append span_digits]. rewrite Hc, (IH Hds). reflexivity.
Qed.

Lemma span_digits_all ds : all_chars is_digit ds = true -> span_digits ds = (ds, "").
Proof.
  intros Hd. rewrite <- (append_nil_r ds) at 1. apply span_digits_append; [exact Hd|reflexivity].
Qed.

Lemma zeros_digits k : all_chars is_digit (zeros k) = true.
Proof. unfold zeros. induction (Z.to_nat k) as [|n IH]; [reflexivity|]. cbn. exact IH. Qed.

Lemma len_zeros k : 0 <= k -> len (zeros k) = k.
Proof.
  intros Hk. unfold len, zeros.
  assert (H : forall n, String.length (string_of_list_ascii (repeat "0"%char n)) = n).
  { induction n as [|n IH]; [reflexivity|]. cbn. rewrite IH. reflexivity. }
  rewrite H. lia.
Qed.

Lemma int_of_digits_zeros k s : int_of_digits 0 (zeros k ++ s) = int_of_digits 0 s.
Proof.
  unfold zeros. induction (Z.to_nat k) as [|n IH]; [reflexivity|].
  cbn [repeat string_of_list_ascii append int_of_digits]. exact IH.
Qed.

Lemma take_drop n s : take n s ++ drop n s = s.
Proof.
  revert s; induction n as [|n IH]; intros [|c s]; try reflexivity.
  cbn [take drop append]. rewrite IH. reflexivity.
Qed.

Lemma all_chars_take p n s : all_chars p s = true -> all_chars p (take n s) = true.
Proof.
  revert s; induction n as [|n IH]; intros [|c s] H; try reflexivity.
  cbn [take all_chars] in *. apply andb_true_iff in H as [Hc Hs].
  rewrite Hc, (IH s Hs). reflexivity.
Qed.

Lemma all_chars_drop p n s : all_chars p s = true -> all_chars p (drop n s) = true.
Proof.
  revert s; induction n as [|n IH]; intros [|c s] H; try exact H.
  cbn [drop all_chars] in *. apply andb_true_iff in H as [Hc Hs]. exact (IH s Hs).
Qed.

Lemma len_drop n s : Z.of_nat n <= len s -> len (drop n s) = len s - Z.of_nat n.
Proof.
  unfold len. revert s; induction n as [|n IH]; intros s H.
  - destruct s; cbn [drop]; lia.
  - destruct s as [|c s]; cbn [String.length] in *; [lia|].
    cbn [drop]. rewrite IH by lia. lia.
Qed.

Lemma take_nonempty n s : (0 < n)%nat -> s <> "" -> take n s <> "".
Proof. intros Hn Hs. destruct n; [lia|]. destruct s; [congruence|discriminate]. Qed.

(** *** Stripping *)

Lemma numeric_char_no_space c : numeric_char c = true -> is_space c = false.
Proof.
  destruct c as [[] [] [] [] [] [] [] []]; vm_compute; congruence.
Qed.

Lemma numeric_char_no_underscore c : numeric_char c = true -> Ascii.eqb c "_" = false.
Proof.
  destruct c as [[] [] [] [] [] [] [] []]; vm_compute; congruence.
Qed.

Lemma is_digit_numeric c : is_digit c = true -> numeric_char c = true.
Proof. intros H. unfold numeric_char. rewrite H. reflexivity. Qed.

Lemma lstrip_numeric s : all_chars numeric_char s = true -> lstrip s = s.
Proof.
  destruct s as [|c s]; [reflexivity|]. cbn [all_chars lstrip].
  intros H. apply andb_true_iff in H as [Hc _].
  rewrite (numeric_char_no_space c Hc). reflexivity.
Qed.

Lemma rstrip_numeric s : all_chars numeric_char s = true -> rstrip s = s.
Proof.
  induction s as [|c s IH]; [reflexivity|]. cbn [all_chars rstrip].
  intros H. apply andb_true_iff in H as [Hc Hs]. rewrite (IH Hs).
  destruct s; [|reflexivity]. rewrite (numeric_char_no_space c Hc). reflexivity.
Qed.

Lemma strip_numeric s : all_chars numeric_char s = true -> strip s = s.
Proof. intros H. unfold strip. rewrite (lstrip_numeric s H). apply rstrip_numeric, H. Qed.

Lemma remove_underscores_numeric s :
  all_chars numeric_char s = true -> remove_underscores s = s.
Proof.
  induction s as [|c s IH]; [reflexivity|]. cbn [all_chars remove_underscores].
  intros H. apply andb_true_iff in H as [Hc Hs].
  rewrite (numeric_char_no_underscore c Hc), (IH Hs). reflexivity.
Qed.


(** *** Numeric strings *)

Lemma is_digit_not_sign c :
  is_digit c = true ->
  Ascii.eqb c "-" = false /\ Ascii.eqb c "+" = false /\ Ascii.eqb c "." = false.
Proof.
  destruct c as [[] [] [] [] [] [] [] []]; vm_compute; intuition congruence.
Qed.

Lemma format_signed_numeric z : all_chars numeric_char (format_signed z) = true.
Proof.
  unfold format_signed. destruct (Z.ltb_spec z 0); cbn [append all_chars];
    (apply andb_true_iff; split; [reflexivity|]);
    (eapply all_chars_impl; [exact is_digit_numeric|apply str_nat_digits; lia]).
Qed.

Lemma parse_exp_format z : z <> 0 -> parse_exp ("E" ++ format_signed z) = Some z.
Proof.
  intros Hz. cbn [append parse_exp]. cbn [Ascii.eqb Bool.eqb orb andb].
  unfold format_signed. destruct (Z.ltb_spec z 0) as [Hneg|Hpos].
  - cbn [append split_sign Ascii.eqb Bool.eqb andb].
    rewrite span_digits_all by (apply str_nat_digits; lia).
    pose proof (str_nat_nonempty (- z)) as Hne. pose proof (str_nat_value (- z) ltac:(lia)) as Hv.
    destruct (str_nat (- z)); [congruence|]. rewrite Hv. f_equal. lia.
  - cbn [append split_sign Ascii.eqb Bool.eqb andb].
    rewrite span_digits_all by (apply str_nat_digits; lia).
    pose proof (str_nat_nonempty z) as Hne. pose proof (str_nat_value z ltac:(lia)) as Hv.
    destruct (str_nat z); [congruence|]. rewrite Hv. reflexivity.
Qed.

Lemma parse_exp_string z : parse_exp (exp_string z) = Some z.
Proof.
  unfold exp_string. destruct (Z.eqb_spec z 0) as [->|Hz]; [reflexivity|].
  apply parse_exp_format, Hz.
Qed.

Lemma exp_string_numeric z : all_chars numeric_char (exp_string z) = true.
Proof.
  unfold exp_string. destruct (z =? 0); [reflexivity|].
  cbn [append all_chars]. apply andb_true_iff. split; [reflexivity|apply format_signed_numeric].
Qed.

Lemma exp_string_no_digit z : starts_with_digit (exp_string z) = false.
Proof. unfold exp_string. destruct (z =? 0); reflexivity. Qed.

Lemma exp_string_no_point z :
  match exp_string z with
  | String c _ => Ascii.eqb c "." = false
  | EmptyString => True
  end.
Proof. unfold exp_string. destruct (z =? 0); [exact I|reflexivity]. Qed.

(** The constructor reads a numeric string as the number it denotes. *)
Lemma Decimal_new_literal neg ip frac z :
  all_chars is_digit ip = true -> ip <> "" ->
  all_chars is_digit (match frac with Some fd => fd | None => "" end) = true ->
  Decimal_new (literal neg ip frac z) =
  Some (mkDecimal neg
          (Z.to_N (int_of_digits 0 (ip ++ match frac with Some fd => fd | None => "" end)))
          (z - len (match frac with Some fd => fd | None => "" end))).
Proof.
  intros Hip Hne Hfd. unfold literal.
  assert (Hnum : all_chars numeric_char
                   ((if neg then "-" else "") ++ ip
                    ++ match frac with Some fd => "." ++ fd | None => "" end
                    ++ exp_string z) = true).
  { rewrite !all_chars_append. repeat (apply andb_true_iff; split).
    - destruct neg; reflexivity.
    - eapply all_chars_impl; [exact is_digit_numeric|exact Hip].
    - destruct frac as [fd|]; [|reflexivity]. cbn [append all_chars].
      apply andb_true_iff. split; [reflexivity|].
      eapply all_chars_impl; [exact is_digit_numeric|exact Hfd].
    - apply exp_string_numeric. }
  unfold Decimal_new. rewrite (strip_numeric _ Hnum), (remove_underscores_numeric _ Hnum).
  assert (Hsign : split_sign ((if neg then "-" else "") ++ ip
                    ++ match frac with Some fd => "." ++ fd | None => "" end
                    ++ exp_string z) =
                  (neg, ip ++ match frac with Some fd => "." ++ fd | None => "" end
                           ++ exp_string z)).
  { destruct neg; [reflexivity|]. cbn [append].
    destruct ip as [|c ip']; [congruence|]. cbn [append split_sign].
    cbn [all_chars] in Hip. apply andb_true_iff in Hip as [Hc _].
    destruct (is_digit_not_sign c Hc) as [H1 [H2 _]]. rewrite H1, H2. reflexivity. }
  rewrite Hsign.
  assert (Hrest : starts_with_digit (match frac with Some fd => "." ++ fd | None => "" end
                                     ++ exp_string z) = false).
  { destruct frac; [reflexivity|]. cbn [append]. apply exp_string_no_digit. }
  rewrite (span_digits_append ip _ Hip Hrest).
  destruct ip as [|c0 ip0] eqn:Eip; [congruence|]. rewrite <- Eip in *.
  destruct frac as [fd|].
  - cbn [append]. cbn [Ascii.eqb Bool.eqb andb].
    rewrite (span_digits_append fd _ Hfd (exp_string_no_digit z)).
    rewrite Eip. rewrite parse_exp_string. rewrite <- Eip. reflexivity.
  - cbn [append]. pose proof (exp_string_no_point z) as Hp.
    pose proof (parse_exp_string z) as He.
    destruct (exp_string z) as [|c r].
    + rewrite Eip. rewrite He. rewrite <- Eip. reflexivity.
    + rewrite Hp. rewrite Eip. rewrite He. rewrite <- Eip. reflexivity.
Qed.


Lemma Decimal_eta d : mkDecimal (dsign d) (Z.to_N (coef d)) (dexp d) = d.
Proof. destruct d as [s c e]. unfold coef; cbn [dsign dint dexp]. rewrite N2Z.id. reflexivity. Qed.

(** [Decimal(str(d))] is [d]: the scientific string keeps sign, coefficient
    and exponent. *)
Theorem Decimal_str_roundtrip d : Decimal_new (Decimal_str d) = Some d.
Proof.
  unfold Decimal_str.
  pose proof (coef_nonneg d) as Hc.
  pose proof (str_nat_digits (coef d) Hc) as Hdig.
  pose proof (str_nat_value (coef d) Hc) as Hval.
  pose proof (str_nat_nonempty (coef d)) as Hne.
  pose proof (len_str_nat_pos (coef d)) as Hlen.
  remember (str_nat (coef d)) as int_ eqn:Hint. clear Hint.
  set (L := len int_) in *.
  set (leftdigits := dexp d + L).
  set (dotplace := if (dexp d <=? 0) && (-6 <? leftdigits) then leftdigits else 1).
  assert (Hexp : (if leftdigits =? dotplace then ""
                  else "E" ++ format_signed (leftdigits - dotplace)) =
                 exp_string (leftdigits - dotplace)).
  { unfold exp_string. destruct (Z.eqb_spec leftdigits dotplace);
      destruct (Z.eqb_spec (leftdigits - dotplace) 0); try lia; reflexivity. }
  rewrite Hexp.
  assert (Hdot : dotplace = leftdigits /\ dexp d <= 0 \/ dotplace = 1).
  { unfold dotplace. destruct (Z.leb_spec (dexp d) 0); destruct (-6 <? leftdigits);
      cbn [andb]; auto. }
  destruct (Z.leb_spec dotplace 0) as [Hle0|Hgt0].
  - (* 0.000ddd *)
    assert (Hd : dotplace = leftdigits) by (destruct Hdot as [[? _]|?]; lia).
    change ((if dsign d then "-" else "") ++ "0" ++ ("." ++ zeros (- dotplace) ++ int_)
            ++ exp_string (leftdigits - dotplace))
      with (literal (dsign d) "0" (Some (zeros (- dotplace) ++ int_)) (leftdigits - dotplace)).
    rewrite Decimal_new_literal.
    + cbn [append int_of_digits]. change (10 * 0 + digit_val "0") with 0.
      rewrite int_of_digits_zeros, Hval, len_append, len_zeros by lia.
      fold L. replace (leftdigits - dotplace - (- dotplace + L)) with (dexp d)
        by (unfold leftdigits in *; lia).
      f_equal. apply Decimal_eta.
    + reflexivity.
    + discriminate.
    + rewrite all_chars_append, zeros_digits, Hdig. reflexivity.
  - destruct (Z.leb_spec L dotplace) as [Hge|Hlt].
    + (* ddd or dE+n *)
      assert (Hd : dotplace = L /\ dexp d = leftdigits - dotplace).
      { unfold leftdigits in *. destruct Hdot as [[? ?]|?]; lia. }
      destruct Hd as [Hd1 Hd2]. replace (dotplace - L) with 0 by lia.
      change (zeros 0) with "". rewrite append_nil_r.
      change ((if dsign d then "-" else "") ++ int_ ++ "" ++ exp_string (leftdigits - dotplace))
        with (literal (dsign d) int_ None (leftdigits - dotplace)).
      rewrite Decimal_new_literal; [|exact Hdig|exact Hne|reflexivity].
      rewrite append_nil_r, Hval. change (len "") with 0.
      rewrite Z.sub_0_r, <- Hd2. f_equal. apply Decimal_eta.
    + (* dd.ddd *)
      change ((if dsign d then "-" else "") ++ take (Z.to_nat dotplace) int_
              ++ ("." ++ drop (Z.to_nat dotplace) int_) ++ exp_string (leftdigits - dotplace))
        with (literal (dsign d) (take (Z.to_nat dotplace) int_)
                      (Some (drop (Z.to_nat dotplace) int_)) (leftdigits - dotplace)).
      rewrite Decimal_new_literal.
      * rewrite take_drop, Hval, len_drop by (fold L; lia). fold L.
        rewrite Z2Nat.id by lia.
        replace (leftdigits - dotplace - (L - dotplace)) with (dexp d)
          by (unfold leftdigits; lia).
        f_equal. apply Decimal_eta.
      * apply all_chars_take, Hdig.
      * apply take_nonempty; [lia|exact Hne].
      * apply all_chars_drop, Hdig.
Qed.

End PyDecimalStrFacts.

(** ** Joins, fills and sorts *)
Module PandasFacts.

Lemma key_eqb_eq a b : key_eqb a b = true <-> a = b.
Proof.
  destruct a as [a1 a2], b as [b1 b2]; unfold key_eqb; cbn [fst snd].
  rewrite andb_true_iff, !Z.eqb_eq. split; [intros []; congruence|intros [=]; auto].
Qed.

Lemma key_eqb_refl a : key_eqb a a = true.
Proof. apply key_eqb_eq; reflexivity. Qed.

Lemma key_eqb_neq a b : key_eqb a b = false <-> a <> b.
Proof.
  rewrite <- key_eqb_eq. destruct (key_eqb a b); split; congruence.
Qed.

Lemma key_ltb_lt a b :
  key_ltb a b = true <-> fst a < fst b \/ (fst a = fst b /\ snd a < snd b).
Proof.
  unfold key_ltb. rewrite orb_true_iff, andb_true_iff, !Z.ltb_lt, Z.eqb_eq. tauto.
Qed.

Lemma key_leb_le a b :
  key_leb a b = true <-> fst a < fst b \/ (fst a = fst b /\ snd a <= snd b).
Proof.
  unfold key_leb. rewrite orb_true_iff, andb_true_iff, Z.ltb_lt, Z.leb_le, Z.eqb_eq. tauto.
Qed.

Lemma key_lt_irrefl a : ~ key_lt a a.
Proof. unfold key_lt; rewrite key_ltb_lt; lia. Qed.

Lemma key_lt_trans a b c : key_lt a b -> key_lt b c -> key_lt a c.
Proof. unfold key_lt; rewrite !key_ltb_lt; lia. Qed.

Lemma key_lt_leb a b : key_lt a b -> key_leb a b = true.
Proof. unfold key_lt; rewrite key_ltb_lt, key_leb_le; lia. Qed.

Lemma key_leb_refl a : key_leb a a = true.
Proof. rewrite key_leb_le; lia. Qed.

Lemma key_trichotomy a b :
  key_ltb a b = false -> key_eqb a b = false -> key_lt b a.
Proof.
  intros H1 H2. apply key_eqb_neq in H2. unfold key_lt. rewrite key_ltb_lt.
  assert (H3 : ~ (fst a < fst b \/ fst a = fst b /\ snd a < snd b)).
  { rewrite <- key_ltb_lt. congruence. }
  destruct a, b; cbn [fst snd] in *.
  assert (~ (z = z1 /\ z0 = z2)) by (intros []; apply H2; congruence). lia.
Qed.

(** *** Sorted lists of keys *)

Lemma insert_key_In k l x : In x (insert_key k l) <-> x = k \/ In x l.
Proof.
  induction l as [|h t IH]; cbn [insert_key].
  - simpl; intuition.
  - destruct (key_ltb k h) eqn:Hlt; [simpl; intuition|].
    destruct (key_eqb k h) eqn:Heq.
    + apply key_eqb_eq in Heq; subst. simpl; intuition.
    + simpl. rewrite IH. intuition.
Qed.

Lemma insert_key_sorted k l :
  StronglySorted key_lt l -> StronglySorted key_lt (insert_key k l).
Proof.
  induction l as [|h t IH]; intros Hs; cbn [insert_key].
  - repeat constructor.
  - inversion Hs as [|? ? Ht Hh]; subst.
    destruct (key_ltb k h) eqn:Hlt.
    + constructor; [assumption|]. constructor; [exact Hlt|].
      rewrite Forall_forall in Hh |- *. intros x Hx.
      eapply key_lt_trans; [exact Hlt|auto].
    + destruct (key_eqb k h) eqn:Heq; [assumption|].
      constructor; [auto|].
      rewrite Forall_forall in Hh |- *. intros x Hx.
      apply insert_key_In in Hx as [->|Hx]; [|auto].
      apply key_trichotomy; assumption.
Qed.

Lemma sorted_keys_In l x : In x (sorted_keys l) <-> In x l.
Proof.
  induction l as [|h t IH]; cbn [sorted_keys fold_right]; [tauto|].
  rewrite insert_key_In. fold (sorted_keys t). rewrite IH. simpl; intuition.
Qed.

Lemma sorted_keys_sorted l : StronglySorted key_lt (sorted_keys l).
Proof.
  induction l as [|h t IH]; cbn [sorted_keys fold_right]; [constructor|].
  apply insert_key_sorted; exact IH.
Qed.

(** Two strictly ascending lists with the same elements are equal. *)
Lemma strictly_sorted_unique l1 : forall l2,
  StronglySorted key_lt l1 -> StronglySorted key_lt l2 ->
  (forall x, In x l1 <-> In x l2) -> l1 = l2.
Proof.
  induction l1 as [|a t1 IH]; intros [|b t2] H1 H2 Hin.
  - reflexivity.
  - exfalso. apply (proj2 (Hin b)). left; reflexivity.
  - exfalso. apply (proj1 (Hin a)). left; reflexivity.
  - inversion H1 as [|? ? Ht1 Ha]; inversion H2 as [|? ? Ht2 Hb]; subst.
    rewrite Forall_forall in Ha, Hb.
    assert (Hab : a = b).
    { destruct (proj1 (Hin a) (or_introl eq_refl)) as [Hba|Hat2]; [auto|].
      destruct (proj2 (Hin b) (or_introl eq_refl)) as [Hab|Hbt1]; [auto|].
      exfalso. apply (key_lt_irrefl a).
      eapply key_lt_trans; [apply Ha; exact Hbt1|apply Hb; exact Hat2]. }
    subst b. f_equal. apply IH; try assumption.
    intros x; split; intros Hx.
    + destruct (proj1 (Hin x) (or_intror Hx)) as [<-|]; [|assumption].
      exfalso. exact (key_lt_irrefl _ (Ha _ Hx)).
    + destruct (proj2 (Hin x) (or_intror Hx)) as [<-|]; [|assumption].
      exfalso. exact (key_lt_irrefl _ (Hb _ Hx)).
Qed.

Lemma sorted_keys_eq ks l :
  StronglySorted key_lt ks -> (forall x, In x l <-> In x ks) -> sorted_keys l = ks.
Proof.
  intros Hs Hin. apply strictly_sorted_unique.
  - apply sorted_keys_sorted.
  - exact Hs.
  - intros x. rewrite sorted_keys_In. apply Hin.
Qed.

Lemma strictly_sorted_NoDup ks : StronglySorted key_lt ks -> NoDup ks.
Proof.
  induction 1 as [|a l Hs IH Ha]; constructor; [|exact IH].
  intros Hin. rewrite Forall_forall in Ha. exact (key_lt_irrefl _ (Ha _ Hin)).
Qed.


(** *** Frames given key by key *)

Section Grouped.
Context {A : Type}.

Lemma matches_app (k : key) (l1 l2 : list (key * A)) :
  matches k (l1 ++ l2) = matches k l1 ++ matches k l2.
Proof. unfold matches. rewrite filter_app, map_app. reflexivity. Qed.

Lemma matches_pair_same (k : key) (vs : list A) : matches k (map (pair k) vs) = vs.
Proof.
  unfold matches. induction vs as [|v vs IH]; [reflexivity|].
  cbn [map filter fst]. rewrite key_eqb_refl. cbn [map snd]. f_equal. exact IH.
Qed.

Lemma matches_pair_other (k k' : key) (vs : list A) :
  k' <> k -> matches k (map (pair k') vs) = [].
Proof.
  intros Hne. unfold matches. induction vs as [|v vs IH]; [reflexivity|].
  cbn [map filter fst]. apply key_eqb_neq in Hne. rewrite Hne. exact IH.
Qed.

Lemma matches_grouped_notin (f : key -> list A) ks k :
  ~ In k ks -> matches k (grouped f ks) = [].
Proof.
  induction ks as [|h t IH]; intros Hn; [reflexivity|].
  unfold grouped in *. cbn [flat_map]. rewrite matches_app.
  rewrite matches_pair_other by (intros ->; apply Hn; left; reflexivity).
  apply IH. intros Hin; apply Hn; right; exact Hin.
Qed.

Lemma matches_grouped (f : key -> list A) ks k :
  NoDup ks -> In k ks -> matches k (grouped f ks) = f k.
Proof.
  induction ks as [|h t IH]; intros Hnd Hin; [destruct Hin|].
  inversion Hnd as [|? ? Hh Ht]; subst.
  unfold grouped in *. cbn [flat_map]. rewrite matches_app.
  destruct Hin as [->|Hin].
  - rewrite matches_pair_same. fold (grouped f t).
    rewrite matches_grouped_notin by exact Hh. apply app_nil_r.
  - rewrite matches_pair_other by (intros ->; contradiction).
    apply IH; assumption.
Qed.

Lemma keys_grouped (f : key -> list A) ks :
  (forall k, In k ks -> f k <> []) ->
  forall x, In x (map fst (grouped f ks)) <-> In x ks.
Proof.
  intros Hne x. unfold grouped. rewrite in_map_iff. split.
  - intros [[k v] [<- Hin]]. apply in_flat_map in Hin as [k' [Hk' Hin]].
    apply in_map_iff in Hin as [v' [[= <- <-] _]]. exact Hk'.
  - intros Hin. specialize (Hne x Hin). destruct (f x) as [|v vs] eqn:Hf; [congruence|].
    exists (x, v). split; [reflexivity|]. apply in_flat_map. exists x.
    split; [exact Hin|]. rewrite Hf. left; reflexivity.
Qed.

Lemma map_cells_grouped {B : Type} (g : A -> B) (f : key -> list A) ks :
  map_cells g (grouped f ks) = grouped (fun k => map g (f k)) ks.
Proof.
  unfold map_cells, grouped. induction ks as [|h t IH]; [reflexivity|].
  cbn [flat_map]. rewrite map_app, IH. f_equal.
  rewrite !map_map. reflexivity.
Qed.

Lemma forallb_grouped (p : A -> bool) (f : key -> list A) ks :
  forallb (fun r => p (snd r)) (grouped f ks) = forallb (fun k => forallb p (f k)) ks.
Proof.
  unfold grouped. induction ks as [|h t IH]; [reflexivity|].
  cbn [flat_map forallb]. rewrite forallb_app, IH. f_equal.
  induction (f h) as [|v vs IHv]; [reflexivity|]. cbn [map forallb snd]. rewrite IHv. reflexivity.
Qed.

(** A frame that is given key by key over ascending keys is sorted
    already: the stable sort leaves it as it is. *)
Lemma insert_row_front (x : key * A) l :
  Forall (fun r => key_leb (fst x) (fst r) = true) l -> insert_row x l = x :: l.
Proof.
  intros Hl. destruct l as [|h t]; [reflexivity|].
  cbn [insert_row]. inversion Hl; subst. rewrite H1. reflexivity.
Qed.

Lemma sort_values_grouped (f : key -> list A) ks :
  StronglySorted key_lt ks -> sort_values (grouped f ks) = grouped f ks.
Proof.
  induction 1 as [|k t Hs IH Hk]; [reflexivity|].
  unfold sort_values, grouped in *. cbn [flat_map]. rewrite fold_right_app, IH.
  assert (Hrest : Forall (fun r => key_leb k (fst r) = true)
                         (flat_map (fun k0 => map (pair k0) (f k0)) t)).
  { rewrite Forall_forall in Hk |- *. intros [k' v] Hin.
    apply in_flat_map in Hin as [k0 [Hk0 Hin]].
    apply in_map_iff in Hin as [v' [[= <- <-] _]].
    apply key_lt_leb, Hk, Hk0. }
  induction (f k) as [|v vs IHv]; [reflexivity|].
  cbn [map fold_right app]. rewrite IHv. apply insert_row_front.
  apply Forall_app; split; [|exact Hrest].
  rewrite Forall_forall. intros r Hr. apply in_map_iff in Hr as [v' [<- _]].
  apply key_leb_refl.
Qed.

End Grouped.

Lemma side_nonempty {A : Type} (ms : list A) : side ms <> [].
Proof. destruct ms; discriminate. Qed.

Lemma side_Some {A : Type} (ms : list A) : ms <> [] -> side (map Some ms) = map Some (map Some ms).
Proof. destruct ms; [congruence|reflexivity]. Qed.

Lemma side_of_nonempty {A : Type} (ms : list A) : ms <> [] -> side ms = map Some ms.
Proof. destruct ms; [congruence|reflexivity]. Qed.

Lemma merge_left_grouped {A : Type} (ks : list key) (right : list (key * A)) :
  merge_left ks right = grouped (fun k => side (matches k right)) ks.
Proof. reflexivity. Qed.

Lemma flat_map_ext_in {A B : Type} (f g : A -> list B) l :
  (forall x, In x l -> f x = g x) -> flat_map f l = flat_map g l.
Proof.
  induction l as [|a l IH]; intros H; [reflexivity|].
  cbn [flat_map]. rewrite (H a) by (left; reflexivity).
  rewrite IH; [reflexivity|]. intros x Hx; apply H; right; exact Hx.
Qed.

Lemma map_flat_map {A B C : Type} (g : B -> C) (f : A -> list B) l :
  map g (flat_map f l) = flat_map (fun x => map g (f x)) l.
Proof.
  induction l as [|a l IH]; [reflexivity|].
  cbn [flat_map]. rewrite map_app, IH. reflexivity.
Qed.

Lemma flat_map_map {A B C : Type} (g : A -> B) (f : B -> list C) l :
  flat_map f (map g l) = flat_map (fun x => f (g x)) l.
Proof.
  induction l as [|a l IH]; [reflexivity|].
  cbn [map flat_map]. rewrite IH. reflexivity.
Qed.

Lemma product_Some {A B : Type} (k : key) (xs : list A) (ys : list B) :
  flat_map (fun x => map (fun y => (k, (x, y))) (map Some ys)) (map Some xs) =
  map (pair k) (map (fun c => (Some (fst c), Some (snd c))) (list_prod xs ys)).
Proof.
  induction xs as [|x xs IH]; [reflexivity|].
  cbn [map flat_map list_prod]. rewrite IH, !map_app. f_equal.
  rewrite !map_map. reflexivity.
Qed.

Lemma forallb_map {A B : Type} (p : B -> bool) (f : A -> B) l :
  forallb p (map f l) = forallb (fun x => p (f x)) l.
Proof. induction l as [|a l IH]; [reflexivity|]. cbn [map forallb]. rewrite IH. reflexivity. Qed.

Lemma forallb_ext_in {A : Type} (p q : A -> bool) l :
  (forall x, In x l -> p x = q x) -> forallb p l = forallb q l.
Proof.
  induction l as [|a l IH]; intros H; [reflexivity|].
  cbn [forallb]. rewrite (H a) by (left; reflexivity).
  rewrite IH; [reflexivity|]. intros x Hx; apply H; right; exact Hx.
Qed.

Lemma list_prod_map {A B C D : Type} (f : A -> C) (g : B -> D) xs ys :
  map (fun c => (f (fst c), g (snd c))) (list_prod xs ys) = list_prod (map f xs) (map g ys).
Proof.
  induction xs as [|x xs IH]; [reflexivity|].
  cbn [map list_prod]. rewrite map_app, IH. f_equal.
  rewrite !map_map. reflexivity.
Qed.

(** The outer merge of two frames given key by key over the same ascending
    keys, each with at least one row per key: no key is added and no value
    is missing. *)
Lemma merge_outer_grouped {A B : Type} (f : key -> list A) (h : key -> list B) ks :
  StronglySorted key_lt ks ->
  (forall k, In k ks -> f k <> []) ->
  (forall k, In k ks -> h k <> []) ->
  merge_outer (grouped f ks) (grouped h ks) =
  grouped (fun k => map (fun c => (Some (fst c), Some (snd c))) (list_prod (f k) (h k))) ks.
Proof.
  intros Hs Hf Hh. unfold merge_outer.
  pose proof (strictly_sorted_NoDup ks Hs) as Hnd.
  rewrite (sorted_keys_eq ks).
  - unfold grouped at 3. apply flat_map_ext_in. intros k Hk.
    rewrite !matches_grouped by assumption.
    rewrite !side_of_nonempty by auto.
    apply product_Some.
  - exact Hs.
  - intros x. rewrite in_app_iff, !keys_grouped by assumption. tauto.
Qed.

(** [fillna(0)] finds nothing to fill when no value is missing. *)
Lemma fillna0_grouped_Some (F : key -> list (cell * cell)) ks :
  fillna0 (grouped (fun k => map (fun c => (Some (fst c), Some (snd c))) (F k)) ks) =
  grouped F ks.
Proof.
  unfold fillna0. 
  set (b1 := forallb _ _). set (b2 := forallb _ _). clearbody b1 b2.
  change (map_cells (fun c => (fill b1 (fst c), fill b2 (snd c)))
            (grouped (fun k => map (fun c => (Some (fst c), Some (snd c))) (F k)) ks) =
          grouped F ks).
  rewrite map_cells_grouped. unfold grouped. apply flat_map_ext. intros k.
  f_equal. rewrite map_map. cbn [fst snd fill].
  rewrite <- (map_id (F k)) at 2. apply map_ext. intros []; reflexivity.
Qed.


Lemma infer_objects_fillna0_merge_left ks (right : list (key * Decimal)) :
  infer_objects_fillna0 (merge_left ks right) =
  grouped (fun k => map (fill_monto (forallb (fun k => forallb isna (side (matches k right))) ks))
                        (side (matches k right))) ks.
Proof.
  unfold infer_objects_fillna0. rewrite merge_left_grouped, forallb_grouped.
  apply (map_cells_grouped (fill_monto _)).
Qed.

End PandasFacts.

Import PyDecimalFacts PandasFacts.

(** * The summary, month by month *)

(** [Decimal_of_str] is the composition the source writes: the constructor
    applied to the string of the cell. *)
Lemma Decimal_of_str_spec (x : cell) :
  PyDecimalStr.Decimal_new (str x) = Some (Decimal_of_str x).
Proof.
  destruct x as [d|n|]; cbn [str Decimal_of_str].
  - apply PyDecimalStrFacts.Decimal_str_roundtrip.
  - unfold PyDecimalStr.str_int.
    assert (Hlit : forall (neg : bool) (m : Z), 0 <= m ->
              PyDecimalStr.Decimal_new
                ((if neg then "-" else "") ++ PyDecimalStr.str_nat m)%string =
              Some (mkDecimal neg (Z.to_N m) 0)).
    { intros neg m Hm.
      pose proof (PyDecimalStrFacts.Decimal_new_literal neg (PyDecimalStr.str_nat m) None 0
                    (PyDecimalStrFacts.str_nat_digits m Hm)
                    (PyDecimalStrFacts.str_nat_nonempty m) eq_refl) as H.
      unfold PyDecimalStr.literal in H. cbn [PyDecimalStr.exp_string Z.eqb] in H.
      rewrite !PyDecimalStrFacts.append_nil_r in H. rewrite H.
      rewrite PyDecimalStrFacts.str_nat_value by exact Hm. reflexivity. }
    destruct (Z.ltb_spec n 0) as [Hneg|Hpos].
    + pose proof (Hlit true (- n) ltac:(lia)) as H. cbn iota in H.
      rewrite H. f_equal. f_equal. lia.
    + pose proof (Hlit false n ltac:(lia)) as H. cbn [append] in H.
      rewrite H. f_equal. f_equal. lia.
  - reflexivity.
Qed.

Lemma range_1_13 : range 1 13 = [1; 2; 3; 4; 5; 6; 7; 8; 9; 10; 11; 12].
Proof. reflexivity. Qed.

Lemma pair_sorted (y : Z) (l : list Z) :
  StronglySorted Z.lt l -> StronglySorted key_lt (map (pair y) l).
Proof.
  induction 1 as [|m l Hs IH Hm]; cbn [map]; constructor; [exact IH|].
  rewrite Forall_forall in Hm |- *. intros k Hk.
  apply in_map_iff in Hk as [m' [<- Hm']].
  unfold key_lt. rewrite key_ltb_lt. cbn [fst snd]. right. split; [reflexivity|auto].
Qed.

Lemma meses_sorted (y : Z) : StronglySorted key_lt (map (pair y) (range 1 13)).
Proof.
  apply pair_sorted. rewrite range_1_13.
  repeat (constructor; [|repeat (constructor; [lia|]); constructor]). constructor.
Qed.

Lemma forallb_isna_side {A : Type} (ms : list A) :
  forallb isna (side ms) = match ms with [] => true | _ => false end.
Proof. destruct ms; reflexivity. Qed.

(** The amounts of a month after the left merge, the filling and the
    conversion to [Decimal]. *)
Lemma month_amounts_eq (y : Z) (df : DataFrame) (m : Z) :
  map Decimal_of_str
      (map (fill_monto (forallb (fun k => forallb isna (side (matches k (frame df))))
                                (map (pair y) (range 1 13))))
           (side (matches (y, m) (frame df)))) =
  month_amounts y df m.
Proof.
  unfold month_amounts, amounts, zero_fill.
  rewrite forallb_map.
  destruct (matches (y, m) (frame df)) as [|d ds] eqn:Hm.
  - cbn [side map fill_monto]. f_equal. f_equal.
    rewrite (forallb_ext_in _ (no_amount y df)); [reflexivity|].
    intros m' _. rewrite forallb_isna_side. reflexivity.
  - cbn [side map fill_monto Decimal_of_str]. f_equal.
    rewrite !map_map. cbn [fill_monto Decimal_of_str]. apply map_id.
Qed.

(** The summary, month by month. *)
Theorem generar_resumen_rows (df_ingresos df_egresos : DataFrame) (anio : PyValue) (y : Z) :
  int anio = inr y ->
  resumen df_ingresos df_egresos anio =
    inr (flat_map (month_rows y df_ingresos df_egresos) (range 1 13)).
Proof.
  intros Hy. unfold resumen, generar_resumen. rewrite Hy. cbn [snd]. f_equal.
  change (map (fun m => (y, m)) (range 1 13)) with (map (pair y) (range 1 13)).
  set (ks := map (pair y) (range 1 13)).
  pose proof (meses_sorted y) as Hks. fold ks in Hks.
  rewrite !infer_objects_fillna0_merge_left.
  rewrite merge_outer_grouped;
    [|exact Hks
     |intros k _ H; apply map_eq_nil in H; exact (side_nonempty _ H)
     |intros k _ H; apply map_eq_nil in H; exact (side_nonempty _ H)].
  rewrite fillna0_grouped_Some.
  match goal with
  | |- map _ (sort_values (map ?g2 (map ?g1 ?X))) = _ =>
      change (map g1 X) with
        (map_cells (fun c => (Decimal_of_str (fst c), Decimal_of_str (snd c))) X);
      change (map g2 ?Y) with (map_cells (fun c => (c, sub (fst c) (snd c))) Y)
  end.
  rewrite !map_cells_grouped, sort_values_grouped by exact Hks.
  unfold grouped, ks. rewrite map_flat_map, flat_map_map.
  apply flat_map_ext. intros m.
  rewrite list_prod_map, !month_amounts_eq.
  unfold month_rows. rewrite !map_map. reflexivity.
Qed.

Lemma in_range_1_13 m : In m (range 1 13) <-> 1 <= m <= 12.
Proof. rewrite range_1_13. simpl. lia. Qed.

Lemma in_amounts y df m d :
  In d (amounts y df m) <->
  exists r, In r df /\ Anio r = y /\ Mes r = m /\ Monto r = d.
Proof.
  unfold amounts, matches, frame. rewrite in_map_iff. split.
  - intros [[k v] [<- Hin]]. apply filter_In in Hin as [Hin Hk].
    apply in_map_iff in Hin as [r [[= <- <-] Hr]].
    apply key_eqb_eq in Hk. cbn [fst] in Hk. injection Hk as Ha Hm.
    exists r. auto.
  - intros [r [Hr [Ha [Hm Hd]]]]. exists ((Anio r, Mes r), Monto r).
    split; [exact Hd|]. apply filter_In. split.
    + apply in_map_iff. exists r. auto.
    + cbn [fst]. apply key_eqb_eq. congruence.
Qed.


Lemma matches_notin {A : Type} (k : key) (df : list (key * A)) :
  ~ In k (map fst df) -> matches k df = [].
Proof.
  unfold matches. induction df as [|[k' v] df IH]; intros Hn; [reflexivity|].
  cbn [filter fst]. destruct (key_eqb k' k) eqn:Hk.
  - apply key_eqb_eq in Hk. subst. exfalso. apply Hn. left; reflexivity.
  - apply IH. intros Hin. apply Hn. right; exact Hin.
Qed.

(** With one row per (year, month) a month has at most one amount. *)
Lemma matches_unique {A : Type} (k : key) (df : list (key * A)) :
  NoDup (map fst df) -> (List.length (matches k df) <= 1)%nat.
Proof.
  induction df as [|[k' v] df IH]; intros Hnd; [simpl; lia|].
  inversion Hnd as [|? ? Hk' Hnd']; subst.
  unfold matches in *. cbn [filter fst]. destruct (key_eqb k' k) eqn:Hk.
  - apply key_eqb_eq in Hk. subst k'.
    cbn [map List.length]. fold (matches k df). rewrite (matches_notin k df Hk'). simpl; lia.
  - apply IH; exact Hnd'.
Qed.



Lemma in_month_rows y ing egr m row :
  In row (month_rows y ing egr m) <->
  exists i e, In i (month_amounts y ing m) /\ In e (month_amounts y egr m) /\
              row = mkResumen y m (meses_nombres m) i e (sub i e).
Proof.
  unfold month_rows. rewrite in_map_iff. split.
  - intros [[i e] [<- Hin]]. apply in_prod_iff in Hin. exists i, e. tauto.
  - intros [i [e [Hi [He ->]]]]. exists (i, e). split; [reflexivity|].
    apply in_prod_iff. tauto.
Qed.

Lemma in_resumen_rows y ing egr row :
  In row (flat_map (month_rows y ing egr) (range 1 13)) <->
  exists m, 1 <= m <= 12 /\ In row (month_rows y ing egr m).
Proof.
  rewrite in_flat_map. split; intros [m [H1 H2]]; exists m; split; auto;
    apply in_range_1_13; exact H1.
Qed.

Lemma coef_zero_fill y df : coef (zero_fill y df) = 0.
Proof. unfold zero_fill. destruct (forallb _ _); reflexivity. Qed.





(** * The properties of the reconciliation *)

Ltac prove_NoDup :=
  repeat (constructor; [simpl; intuition congruence|]); constructor.

Lemma valid_ingresos_ejemplo : valid_dataset 2024 ingresos_ejemplo.
Proof. split; [prove_NoDup|repeat constructor; simpl; lia]. Defined.

Lemma valid_egresos_ejemplo : valid_dataset 2024 egresos_ejemplo.
Proof. split; [prove_NoDup|repeat constructor; simpl; lia]. Defined.






Lemma db_decimal_zero_fill y df : db_decimal (zero_fill y df).
Proof.
  unfold zero_fill, db_decimal.
  pose proof (pow10_pos 65 ltac:(lia)) as Hp.
  destruct (forallb _ _); unfold coef; cbn [Decimal_of_str dint dexp Z.abs_N Z.of_N]; lia.
Qed.

Lemma db_decimal_month_amounts y df m i :
  db_amounts df -> In i (month_amounts y df m) -> db_decimal i.
Proof.
  intros Hdb Hi. unfold month_amounts in Hi.
  destruct (amounts y df m) as [|d ds] eqn:Hd.
  - destruct Hi as [<-|[]]. apply db_decimal_zero_fill.
  - rewrite <- Hd in Hi. apply in_amounts in Hi as [r [Hr [_ [_ <-]]]].
    unfold db_amounts in Hdb. rewrite Forall_forall in Hdb. exact (Hdb r Hr).
Qed.

(** X6: with amounts of the database the balance of every row is what
    [__sub__] answers under the exponent limits of the context, and no
    [Overflow] is raised. *)
Lemma balance_within_limits (ing egr : DataFrame) (anio : PyValue) (y : Z) :
  int anio = inr y -> db_amounts ing -> db_amounts egr ->
  exists t, resumen ing egr anio = inr t /\
    Forall (fun r => sub_context (Monto_Ingresos r) (Monto_Egresos r) = inr (Balance r)) t.
Proof.
  intros Hy Hi He. rewrite (generar_resumen_rows ing egr anio y Hy).
  eexists. split; [reflexivity|]. apply Forall_forall. intros r Hr.
  apply in_resumen_rows in Hr as [m [_ Hr]].
  apply in_month_rows in Hr as [i [e [Hi' [He' ->]]]].
  cbn [Monto_Ingresos Monto_Egresos Balance].
  apply sub_context_db.
  - exact (db_decimal_month_amounts y ing m i Hi Hi').
  - exact (db_decimal_month_amounts y egr m e He He').
Qed.




(** C4: with both inputs empty the call prints its warning and succeeds;
    the summary has the twelve months of the target year and every income,
    expense and balance is zero. *)
Theorem resumen_empty_inputs (anio : PyValue) (y : Z) :
  int anio = inr y ->
  exists t, generar_resumen [] [] anio = ([advertencia], inr t) /\
            List.length t = 12%nat /\
            map res_key t = map (pair y) [1; 2; 3; 4; 5; 6; 7; 8; 9; 10; 11; 12] /\
            Forall (fun r => is_zero_amount (Monto_Ingresos r) /\
                             is_zero_amount (Monto_Egresos r) /\
                             is_zero_amount (Balance r)) t.
Proof.
  intros Hy.
  assert (Hfst : fst (generar_resumen [] [] anio) = [advertencia])
    by (unfold generar_resumen; rewrite Hy; reflexivity).
  pose proof (generar_resumen_rows [] [] anio y Hy) as Hsnd. unfold resumen in Hsnd.
  destruct (generar_resumen [] [] anio) as [printed res]. cbn [fst snd] in *. subst.
  eexists. split; [reflexivity|].
  split; [rewrite range_1_13; reflexivity|].
  split; [rewrite range_1_13; reflexivity|].
  apply Forall_forall. intros r Hr.
  apply in_resumen_rows in Hr as [m [_ Hr]].
  apply in_month_rows in Hr as [i [e [Hi [He ->]]]].
  destruct Hi as [<-|[]], He as [<-|[]].
  cbn [Monto_Ingresos Monto_Egresos Balance]. unfold is_zero_amount.
  repeat split; apply value_zero; try apply sub_zero; apply coef_zero_fill.
Qed.

Lemma resumen_empty_inputs_witness :
  int (PyStr "2025") = inr 2025 /\
  exists t, generar_resumen [] [] (PyStr "2025") = ([advertencia], inr t) /\
            List.length t = 12%nat /\
            map res_key t = map (pair 2025) [1; 2; 3; 4; 5; 6; 7; 8; 9; 10; 11; 12] /\
            Forall (fun r => is_zero_amount (Monto_Ingresos r) /\
                             is_zero_amount (Monto_Egresos r) /\
                             is_zero_amount (Balance r)) t.
Proof.
  split; [reflexivity|]. exact (resumen_empty_inputs (PyStr "2025") 2025 eq_refl).
Defined.

(** [main] itself never reconciles empty inputs: an empty monthly query is
    not kept, and without both monthly frames no summary is generated. *)
Lemma main_skips_empty_inputs (df : DataFrame) (anio : string) :
  main_resumen [] df anio = None /\ main_resumen df [] anio = None.
Proof. unfold main_resumen. split; [reflexivity|]. destruct df; reflexivity. Qed.














(** C8: the worked example.  March has income 1500.50, expense 400.25 and
    balance 1100.25; July has income 0, expense 100.00 and balance -100.00;
    the ten other months have income 0, expense 0 and balance 0; there are
    twelve rows. *)
Theorem resumen_ejemplo :
  resumen ingresos_ejemplo egresos_ejemplo (PyInt 2024) =
  inr [ fila_cero 2024 1; fila_cero 2024 2;
        mkResumen 2024 3 (Some "Marzo"%string)
                  d_1500_50 d_400_25 (mkDecimal false 110025 (-2));
        fila_cero 2024 4; fila_cero 2024 5; fila_cero 2024 6;
        mkResumen 2024 7 (Some "Julio"%string)
                  (mkDecimal false 0 0) d_100_00 (mkDecimal true 10000 (-2));
        fila_cero 2024 8; fila_cero 2024 9; fila_cero 2024 10;
        fila_cero 2024 11; fila_cero 2024 12 ].
Proof. vm_compute. reflexivity. Qed.




(** * Further properties of [generar_resumen] *)















Lemma short_lists_equal {A : Type} (l1 l2 : list A) :
  (List.length l1 <= 1)%nat -> (List.length l2 <= 1)%nat ->
  (forall x, In x l1 <-> In x l2) -> l1 = l2.
Proof.
  destruct l1 as [|a [|a' l1]], l2 as [|b [|b' l2]]; cbn [List.length];
    intros H1 H2 Hin; try lia.
  - reflexivity.
  - exfalso. exact (proj2 (Hin b) (or_introl eq_refl)).
  - exfalso. exact (proj1 (Hin a) (or_introl eq_refl)).
  - destruct (proj1 (Hin a) (or_introl eq_refl)) as [->|[]]. reflexivity.
Qed.

Lemma amounts_permutation y df df' m :
  Permutation df df' -> NoDup (map fst (frame df)) ->
  amounts y df m = amounts y df' m.
Proof.
  intros Hp Hnd.
  assert (Hnd' : NoDup (map fst (frame df'))).
  { eapply Permutation_NoDup; [|exact Hnd]. unfold frame.
    apply Permutation_map, Permutation_map, Hp. }
  apply short_lists_equal.
  - apply matches_unique, Hnd.
  - apply matches_unique, Hnd'.
  - intros d. rewrite !in_amounts. split; intros [r [Hr H]]; exists r; (split; [|exact H]).
    + eapply Permutation_in; [exact Hp|exact Hr].
    + eapply Permutation_in; [apply Permutation_sym; exact Hp|exact Hr].
Qed.

Lemma month_amounts_permutation y df df' m :
  Permutation df df' -> NoDup (map fst (frame df)) ->
  month_amounts y df m = month_amounts y df' m.
Proof.
  intros Hp Hnd. unfold month_amounts, zero_fill.
  rewrite (amounts_permutation y df df' m Hp Hnd).
  rewrite (forallb_ext_in (no_amount y df) (no_amount y df')); [reflexivity|].
  intros m' _. unfold no_amount. rewrite (amounts_permutation y df df' m' Hp Hnd). reflexivity.
Qed.

(** X3: with one row per (year, month) in each input, the order of the
    input rows does not matter: the inputs in any other order give the same
    call result, printed text included. *)
Theorem resumen_order_independent (ing ing' egr egr' : DataFrame) (anio : PyValue) :
  Permutation ing ing' -> Permutation egr egr' ->
  NoDup (map fst (frame ing)) -> NoDup (map fst (frame egr)) ->
  generar_resumen ing egr anio = generar_resumen ing' egr' anio.
Proof.
  intros Hi He Ni Ne.
  assert (Hempty : forall df df', Permutation df df' -> empty df = empty df').
  { intros df df' Hp. destruct df as [|a df], df' as [|b df']; try reflexivity.
    - apply Permutation_nil in Hp. discriminate.
    - apply Permutation_sym, Permutation_nil in Hp. discriminate. }
  assert (Hfst : fst (generar_resumen ing egr anio) = fst (generar_resumen ing' egr' anio)).
  { unfold generar_resumen. rewrite (Hempty _ _ Hi), (Hempty _ _ He).
    destruct (int anio); reflexivity. }
  assert (Hsnd : resumen ing egr anio = resumen ing' egr' anio).
  { destruct (int anio) as [e|y] eqn:Hy.
    - unfold resumen, generar_resumen. rewrite Hy. reflexivity.
    - rewrite !(generar_resumen_rows _ _ anio y Hy). f_equal.
      apply flat_map_ext. intros m. unfold month_rows.
      rewrite (month_amounts_permutation y ing ing' m Hi Ni),
              (month_amounts_permutation y egr egr' m He Ne). reflexivity. }
  unfold resumen in Hsnd.
  destruct (generar_resumen ing egr anio), (generar_resumen ing' egr' anio).
  cbn [fst snd] in *. congruence.
Qed.

Lemma resumen_order_independent_witness :
  Permutation ingresos_ejemplo ingresos_ejemplo /\
  Permutation egresos_ejemplo (rev egresos_ejemplo) /\
  NoDup (map fst (frame ingresos_ejemplo)) /\ NoDup (map fst (frame egresos_ejemplo)) /\
  generar_resumen ingresos_ejemplo egresos_ejemplo (PyInt 2024) =
  generar_resumen ingresos_ejemplo (rev egresos_ejemplo) (PyInt 2024).
Proof.
  assert (H1 : Permutation ingresos_ejemplo ingresos_ejemplo) by apply Permutation_refl.
  assert (H2 : Permutation egresos_ejemplo (rev egresos_ejemplo)) by apply Permutation_rev.
  split; [exact H1|]. split; [exact H2|].
  split; [exact (proj1 valid_ingresos_ejemplo)|]. split; [exact (proj1 valid_egresos_ejemplo)|].
  exact (resumen_order_independent ingresos_ejemplo ingresos_ejemplo
           egresos_ejemplo (rev egresos_ejemplo) (PyInt 2024) H1 H2
           (proj1 valid_ingresos_ejemplo) (proj1 valid_egresos_ejemplo)).
Defined.



(** X5: [Decimal(str(x))] never fails on a cell of the [Monto] columns and
    loses nothing: an amount comes back with the same sign, digits and
    exponent, and the fillings [0] and [0.0] come back as zero. *)
Theorem Decimal_str_lossless (x : cell) :
  PyDecimalStr.Decimal_new (str x) = Some (Decimal_of_str x) /\
  (forall d, x = CDecimal d -> Decimal_of_str x = d) /\
  value (Decimal_of_str x) ==
    match x with
    | CDecimal d => value d
    | CInt n => inject_Z n
    | CFloatZero => 0
    end.
Proof.
  split; [apply Decimal_of_str_spec|]. split.
  - intros d ->. reflexivity.
  - destruct x as [d|n|]; cbn [Decimal_of_str].
    + reflexivity.
    + unfold value, sval, coef. cbn [dsign dint dexp].
      change (inject_Z 10 ^ 0)%Q with 1%Q. rewrite Qmult_1_r, N2Z.inj_abs_N.
      destruct (Z.ltb_spec n 0).
      * replace (- Z.abs n) with n by lia. reflexivity.
      * replace (Z.abs n) with n by lia. reflexivity.
    + reflexivity.
Qed.

Lemma balance_within_limits_witness :
  int (PyInt 2024) = inr 2024 /\
  db_amounts ingresos_ejemplo /\ db_amounts egresos_ejemplo /\
  exists t, resumen ingresos_ejemplo egresos_ejemplo (PyInt 2024) = inr t /\
    Forall (fun r => sub_context (Monto_Ingresos r) (Monto_Egresos r) = inr (Balance r)) t.
Proof.
  assert (Hi : db_amounts ingresos_ejemplo)
    by (repeat constructor; cbn [Monto dexp d_1500_50]; lia).
  assert (He : db_amounts egresos_ejemplo)
    by (repeat constructor; cbn [Monto dexp d_400_25 d_100_00]; lia).
  split; [reflexivity|]. split; [exact Hi|]. split; [exact He|].
  exact (balance_within_limits ingresos_ejemplo egresos_ejemplo (PyInt 2024) 2024
           eq_refl Hi He).
Defined.

(** * The menu and the year *)

(** X7: the menu loop takes the first typed line that is one of the keys of
    [niveles_disponibles] and leaves the lines after it unread; every line
    before it costs one prompt and one error message.  When no typed line
    is a key, the loop ends only with [EOFError] at the end of the input. *)
Theorem elegir_nivel_first_valid (bad : list string) :
  Forall (fun s => dict_get niveles_disponibles s = None) bad ->
  elegir_nivel bad =
    (flat_map (fun _ => [prompt_nivel; print opcion_invalida]) bad ++ [prompt_nivel],
     inl EOFError) /\
  forall (opcion nivel : string) (rest : list string),
    dict_get niveles_disponibles opcion = Some nivel ->
    elegir_nivel (bad ++ opcion :: rest) =
      (flat_map (fun _ => [prompt_nivel; print opcion_invalida]) bad ++ [prompt_nivel],
       inr (nivel, rest)).
Proof.
  induction 1 as [|s bad Hs _ [IH1 IH2]].
  - split; [reflexivity|]. intros opcion nivel rest Ho.
    cbn [app elegir_nivel flat_map]. rewrite Ho. reflexivity.
  - split.
    + cbn [elegir_nivel flat_map]. rewrite Hs, IH1. reflexivity.
    + intros opcion nivel rest Ho.
      cbn [app elegir_nivel flat_map]. rewrite Hs, (IH2 opcion nivel rest Ho). reflexivity.
Qed.

Lemma elegir_nivel_first_valid_witness :
  Forall (fun s => dict_get niveles_disponibles s = None) ["5"; " 1"; "Inicial"]%string /\
  elegir_nivel ["5"; " 1"; "Inicial"]%string =
    ([prompt_nivel; print opcion_invalida; prompt_nivel; print opcion_invalida;
      prompt_nivel; print opcion_invalida; prompt_nivel], inl EOFError) /\
  elegir_nivel ["5"; " 1"; "Inicial"; "3"; "2024"]%string =
    ([prompt_nivel; print opcion_invalida; prompt_nivel; print opcion_invalida;
      prompt_nivel; print opcion_invalida; prompt_nivel],
     inr ("Secundaria"%string, ["2024"%string])).
Proof.
  assert (H : Forall (fun s => dict_get niveles_disponibles s = None)
                     ["5"; " 1"; "Inicial"]%string)
    by (repeat constructor).
  split; [exact H|]. split.
  - exact (proj1 (elegir_nivel_first_valid _ H)).
  - exact (proj2 (elegir_nivel_first_valid _ H) "3"%string "Secundaria"%string
                 ["2024"%string] eq_refl).
Defined.

Lemma niveles_disponibles_keys (opcion nivel : string) :
  dict_get niveles_disponibles opcion = Some nivel ->
  exists n, opcion = PyDecimalStr.str_int n /\ 1 <= n <= 4 /\
            PyLong.int_of_str opcion = Some n /\ dict_get niveles nivel = Some n.
Proof.
  unfold niveles_disponibles. cbn [dict_get].
  destruct (String.eqb_spec opcion "1") as [->|_];
    [intros [= <-]; exists 1; repeat split; lia|].
  destruct (String.eqb_spec opcion "2") as [->|_];
    [intros [= <-]; exists 2; repeat split; lia|].
  destruct (String.eqb_spec opcion "3") as [->|_];
    [intros [= <-]; exists 3; repeat split; lia|].
  destruct (String.eqb_spec opcion "4") as [->|_];
    [intros [= <-]; exists 4; repeat split; lia|].
  discriminate.
Qed.

(** X8: whenever the menu loop answers with a level, the lookup
    [niveles[nivel]] of that level succeeds (no [KeyError]), and the number
    it gives is the one that was typed: the chosen line is exactly the text
    of a number from 1 to 4, with no space or sign around it. *)
Theorem nivel_elegido_en_niveles (stdin written : list string) (nivel : string)
    (rest : list string) :
  elegir_nivel stdin = (written, inr (nivel, rest)) ->
  exists (opcion : string) (n : Z),
    In opcion stdin /\
    dict_get niveles_disponibles opcion = Some nivel /\
    opcion = PyDecimalStr.str_int n /\ 1 <= n <= 4 /\
    PyLong.int_of_str opcion = Some n /\
    dict_get niveles nivel = Some n.
Proof.
  revert written. induction stdin as [|s stdin IH]; intros written; [discriminate|].
  cbn [elegir_nivel].
  destruct (dict_get niveles_disponibles s) as [nivel'|] eqn:Hs.
  - intros [= <- <- <-].
    destruct (niveles_disponibles_keys s nivel' Hs) as [n [H1 [H2 [H3 H4]]]].
    exists s, n. repeat split; try assumption; try lia. left; reflexivity.
  - destruct (elegir_nivel stdin) as [written' r] eqn:Hr. intros [= <- ->].
    destruct (IH written' eq_refl) as [opcion [n [Hin H]]].
    exists opcion, n. split; [right; exact Hin|exact H].
Qed.

Lemma nivel_elegido_en_niveles_witness :
  elegir_nivel ["0"; "4"; ""]%string =
    ([prompt_nivel; print opcion_invalida; prompt_nivel],
     inr ("Terciario"%string, [""%string])) /\
  exists (opcion : string) (n : Z),
    In opcion ["0"; "4"; ""]%string /\
    dict_get niveles_disponibles opcion = Some "Terciario"%string /\
    opcion = PyDecimalStr.str_int n /\ 1 <= n <= 4 /\
    PyLong.int_of_str opcion = Some n /\
    dict_get niveles "Terciario" = Some n.
Proof.
  split; [reflexivity|].
  exact (nivel_elegido_en_niveles ["0"; "4"; ""]%string
           [prompt_nivel; print opcion_invalida; prompt_nivel]
           "Terciario"%string [""%string] eq_refl).
Defined.

(** ** [int(str(n))] *)









(** * The loop that clears the charts *)

Section RemoveLoop.

Context {A : Type} (eqb : A -> A -> bool).

Lemma list_remove_In (x : A) (l : list A) :
  eqb x x = true -> In x l ->
  exists l', list_remove eqb x l = Some l' /\
             List.length l = S (List.length l') /\ incl l' l.
Proof.
  intros Hx. induction l as [|h t IH]; intros Hin; [destruct Hin|].
  cbn [list_remove]. destruct (eqb h x) eqn:Hh.
  - exists t. split; [reflexivity|]. split; [reflexivity|]. apply incl_tl, incl_refl.
  - destruct Hin as [->|Hin]; [congruence|].
    destruct (IH Hin) as [t' [-> [Hlen Hincl]]].
    exists (h :: t'). split; [reflexivity|]. split; [cbn [List.length]; lia|].
    intros y [<-|Hy]; [left; reflexivity|right; apply Hincl, Hy].
Qed.

Lemma remove_loop_length (fuel : nat) : forall (i : nat) (l : list A),
  (forall c, eqb c c = true) ->
  (List.length l - i <= 2 * fuel)%nat ->
  exists kept, remove_loop eqb fuel i l = Some kept /\
    List.length kept = Nat.min (List.length l) (i + (List.length l - i) / 2) /\
    incl kept l.
Proof.
  induction fuel as [|fuel IH]; intros i l Hrefl Hfuel.
  - exists l. split; [reflexivity|]. split; [|apply incl_refl].
    replace (List.length l - i)%nat with 0%nat by lia.
    change (0 / 2)%nat with 0%nat. lia.
  - cbn [remove_loop]. destruct (nth_error l i) as [chart|] eqn:Hnth.
    + assert (Hi : (i < List.length l)%nat) by (apply nth_error_Some; congruence).
      destruct (list_remove_In chart l (Hrefl chart) (nth_error_In l i Hnth))
        as [l' [-> [Hlen Hincl]]].
      destruct (IH (S i) l' Hrefl ltac:(lia)) as [kept [-> [Hk Hin]]].
      exists kept. split; [reflexivity|]. split.
      * rewrite Hk, Hlen.
        destruct (Nat.eq_dec (S i) (List.length l)) as [He|Hne].
        -- replace (List.length l' - S i)%nat with 0%nat by lia.
           replace (S (List.length l') - i)%nat with 1%nat by lia.
           change (0 / 2)%nat with 0%nat. change (1 / 2)%nat with 0%nat. lia.
        -- replace (S (List.length l') - i)%nat with (2 + (List.length l' - S i))%nat by lia.
           replace (2 + (List.length l' - S i))%nat
             with ((List.length l' - S i) + 1 * 2)%nat by lia.
           rewrite Nat.div_add by lia.
           assert ((List.length l' - S i) / 2 <= List.length l' - S i)%nat
             by (apply Nat.Div0.div_le_upper_bound; lia).
           lia.
      * intros y Hy. apply Hincl, Hin, Hy.
    + apply nth_error_None in Hnth. exists l. split; [reflexivity|].
      split; [|apply incl_refl].
      replace (List.length l - i)%nat with 0%nat by lia.
      change (0 / 2)%nat with 0%nat. lia.
Qed.

Lemma list_remove_at (pre : list A) (x : A) (rest : list A) :
  (forall a b, In a (pre ++ x :: rest) -> In b (pre ++ x :: rest) ->
               (eqb a b = true <-> a = b)) ->
  NoDup (pre ++ x :: rest) ->
  list_remove eqb x (pre ++ x :: rest) = Some (pre ++ rest).
Proof.
  induction pre as [|h pre IH]; intros Heq Hnd.
  - cbn [app list_remove].
    rewrite (proj2 (Heq x x (or_introl eq_refl) (or_introl eq_refl)) eq_refl). reflexivity.
  - cbn [app list_remove] in *. inversion Hnd as [|? ? Hh Hnd']; subst.
    destruct (eqb h x) eqn:Hhx.
    + apply Heq in Hhx; [|left; reflexivity|right; apply in_elt].
      subst h. exfalso. apply Hh, in_elt.
    + rewrite IH; [reflexivity| |exact Hnd'].
      intros a b Ha Hb. apply Heq; right; assumption.
Qed.

Lemma remove_loop_distinct (fuel : nat) : forall (pre rest : list A),
  (forall a b, In a (pre ++ rest) -> In b (pre ++ rest) -> (eqb a b = true <-> a = b)) ->
  NoDup (pre ++ rest) ->
  (List.length rest <= 2 * fuel)%nat ->
  remove_loop eqb fuel (List.length pre) (pre ++ rest) =
  Some (pre ++ second_of_each_pair rest).
Proof.
  induction fuel as [|fuel IH]; intros pre rest Heq Hnd Hfuel.
  - destruct rest; [reflexivity|cbn [List.length] in Hfuel; lia].
  - cbn [remove_loop]. destruct rest as [|x rest].
    + cbn [second_of_each_pair]. rewrite app_nil_r.
      rewrite (proj2 (nth_error_None pre (List.length pre)) (Nat.le_refl _)). reflexivity.
    + rewrite nth_error_app2, Nat.sub_diag by lia. cbn [nth_error].
      rewrite (list_remove_at pre x rest Heq Hnd).
      assert (Hnd' : NoDup (pre ++ rest)) by (eapply NoDup_remove_1; exact Hnd).
      assert (Heq' : forall a b, In a (pre ++ rest) -> In b (pre ++ rest) ->
                                 (eqb a b = true <-> a = b)).
      { intros a b Ha Hb. apply Heq.
        - apply in_app_iff in Ha as [Ha|Ha]; apply in_app_iff; [left|right; right]; exact Ha.
        - apply in_app_iff in Hb as [Hb|Hb]; apply in_app_iff; [left|right; right]; exact Hb. }
      destruct rest as [|y rest].
      * cbn [second_of_each_pair]. rewrite !app_nil_r.
        destruct fuel; cbn [remove_loop]; [reflexivity|].
        rewrite (proj2 (nth_error_None pre (S (List.length pre)))) by lia. reflexivity.
      * cbn [second_of_each_pair].
        replace (pre ++ y :: rest) with ((pre ++ [y]) ++ rest)
          by (rewrite <- app_assoc; reflexivity).
        replace (S (List.length pre)) with (List.length (pre ++ [y]))
          by (rewrite length_app; cbn [List.length]; lia).
        rewrite IH.
        -- rewrite <- app_assoc. reflexivity.
        -- rewrite <- app_assoc. exact Heq'.
        -- rewrite <- app_assoc. exact Hnd'.
        -- cbn [List.length] in Hfuel. lia.
Qed.

End RemoveLoop.

(** * The charts of the summary sheet *)

Lemma Reference_eqb_refl (r : Reference) : Reference_eqb r r = true.
Proof. unfold Reference_eqb. rewrite !Z.eqb_refl. reflexivity. Qed.

Lemma list_eqb_refl {A : Type} (eqb : A -> A -> bool) (l : list A) :
  (forall a, eqb a a = true) -> list_eqb eqb l l = true.
Proof.
  intros H. induction l as [|a l IH]; [reflexivity|].
  cbn [list_eqb]. rewrite H, IH. reflexivity.
Qed.

Lemma Chart_eqb_refl (c : Chart) : Chart_eqb c c = true.
Proof.
  unfold Chart_eqb.
  rewrite !String.eqb_refl, !Z.eqb_refl, Reference_eqb_refl,
          (list_eqb_refl _ _ Reference_eqb_refl).
  destruct (chart_type c); reflexivity.
Qed.

Lemma find_resumen_split (wb : Workbook) (ws : Worksheet) :
  find es_resumen wb = Some ws ->
  exists pre post, wb = pre ++ ws :: post /\
                   Forall (fun h => es_resumen h = false) pre /\ es_resumen ws = true.
Proof.
  induction wb as [|h wb IH]; [discriminate|]. cbn [find].
  destruct (es_resumen h) eqn:Hh.
  - intros [= <-]. exists [], wb. repeat split; [constructor|exact Hh].
  - intros Hf. destruct (IH Hf) as [pre [post [-> [Hpre Hws]]]].
    exists (h :: pre), post. repeat split; [constructor; assumption|exact Hws].
Qed.

Lemma find_resumen_app (pre post : Workbook) (ws : Worksheet) :
  Forall (fun h => es_resumen h = false) pre -> es_resumen ws = true ->
  find es_resumen (pre ++ ws :: post) = Some ws.
Proof.
  intros Hpre Hws. induction Hpre as [|h pre Hh _ IH]; cbn [app find].
  - rewrite Hws. reflexivity.
  - rewrite Hh. exact IH.
Qed.

Lemma find_resumen_none (wb : Workbook) :
  Forall (fun h => es_resumen h = false) wb -> find es_resumen wb = None.
Proof.
  induction 1 as [|h wb Hh _ IH]; [reflexivity|]. cbn [find]. rewrite Hh. exact IH.
Qed.

Lemma guardar_hoja_app (ws' : Worksheet) (pre post : Workbook) (ws : Worksheet) :
  Forall (fun h => es_resumen h = false) pre -> es_resumen ws = true ->
  guardar_hoja ws' (pre ++ ws :: post) = pre ++ ws' :: post.
Proof.
  intros Hpre Hws. induction Hpre as [|h pre Hh _ IH]; cbn [app guardar_hoja].
  - rewrite Hws. reflexivity.
  - rewrite Hh, IH. reflexivity.
Qed.

Lemma eliminar_graficos_length {A : Type} (eqb : A -> A -> bool) (l : list A) :
  (forall c, eqb c c = true) ->
  exists kept, eliminar_graficos eqb l = Some kept /\
    List.length kept = (List.length l / 2)%nat /\ incl kept l.
Proof.
  intros Hrefl. unfold eliminar_graficos.
  destruct (remove_loop_length eqb (List.length l) 0 l Hrefl ltac:(lia))
    as [kept [Hk [Hlen Hincl]]].
  exists kept. split; [exact Hk|]. split; [|exact Hincl].
  rewrite Hlen, Nat.sub_0_r, Nat.add_0_l.
  apply Nat.min_r. apply Nat.Div0.div_le_upper_bound. lia.
Qed.

(** X10: the loop that is meant to discard the charts of the sheet never
    fails, but it takes away only one chart of every two: of [n] charts
    [n / 2] are left, all of them charts of the sheet.  Nothing is left
    only when the sheet had at most one chart. *)
Theorem eliminar_graficos_half {A : Type} (eqb : A -> A -> bool) (l : list A) :
  (forall c, eqb c c = true) ->
  exists kept, eliminar_graficos eqb l = Some kept /\
    List.length kept = (List.length l / 2)%nat /\
    incl kept l /\
    (kept = [] <-> (List.length l <= 1)%nat).
Proof.
  intros Hrefl. destruct (eliminar_graficos_length eqb l Hrefl) as [kept [Hk [Hlen Hincl]]].
  exists kept. split; [exact Hk|]. split; [exact Hlen|]. split; [exact Hincl|].
  split.
  - intros ->. cbn [List.length] in Hlen. symmetry in Hlen.
    apply Nat.div_small_iff in Hlen; lia.
  - intros Hl. rewrite Nat.div_small in Hlen by lia.
    destruct kept; [reflexivity|discriminate].
Qed.

Lemma eliminar_graficos_half_witness :
  (forall c, Z.eqb c c = true) /\
  exists kept, eliminar_graficos Z.eqb [1; 2; 3; 4; 5] = Some kept /\
    List.length kept = (List.length [1; 2; 3; 4; 5] / 2)%nat /\
    incl kept [1; 2; 3; 4; 5] /\
    (kept = [] <-> (List.length [1; 2; 3; 4; 5] <= 1)%nat).
Proof.
  split; [exact Z.eqb_refl|].
  exact (eliminar_graficos_half Z.eqb [1; 2; 3; 4; 5] Z.eqb_refl).
Defined.

(** X11: when no two charts of the sheet are equal, the loop leaves exactly
    the charts at the second, fourth, ... place, in their order: the
    iterator moves on by one while the list shrinks under it. *)
Theorem eliminar_graficos_distinct {A : Type} (eqb : A -> A -> bool) (l : list A) :
  (forall a b, In a l -> In b l -> (eqb a b = true <-> a = b)) ->
  NoDup l ->
  eliminar_graficos eqb l = Some (second_of_each_pair l).
Proof.
  intros Heq Hnd. unfold eliminar_graficos.
  exact (remove_loop_distinct eqb (List.length l) [] l Heq Hnd ltac:(lia)).
Qed.

Lemma eliminar_graficos_distinct_witness :
  (forall a b, In a [1; 2; 3; 4; 5] -> In b [1; 2; 3; 4; 5] -> (Z.eqb a b = true <-> a = b)) /\
  NoDup [1; 2; 3; 4; 5] /\
  eliminar_graficos Z.eqb [1; 2; 3; 4; 5] = Some [2; 4].
Proof.
  assert (Heq : forall a b, In a [1; 2; 3; 4; 5] -> In b [1; 2; 3; 4; 5] ->
                            (Z.eqb a b = true <-> a = b))
    by (intros a b _ _; apply Z.eqb_eq).
  assert (Hnd : NoDup [1; 2; 3; 4; 5])
    by (repeat (constructor; [cbn [In]; lia|]); constructor).
  split; [exact Heq|]. split; [exact Hnd|].
  exact (eliminar_graficos_distinct Z.eqb [1; 2; 3; 4; 5] Heq Hnd).
Defined.

(** X12: [agregar_graficos] on a loaded workbook never takes the path of the
    exception handler because of its own loop, and it keeps the sheets and
    their names.  Without a sheet "Resumen" nothing changes.  With one,
    only that sheet changes: half of its former charts stay, and the bar
    chart and the line chart for its rows are attached after them, so a
    sheet that already had [n] charts ends with [n / 2 + 2]. *)
Theorem agregar_graficos_resumen (eqb : Chart -> Chart -> bool) (wb : Workbook) :
  (forall c, eqb c c = true) ->
  exists wb', agregar_graficos eqb wb = Some wb' /\
    sheetnames wb' = sheetnames wb /\
    match find es_resumen wb with
    | None => wb' = wb
    | Some ws =>
        exists kept pre post,
          wb = pre ++ ws :: post /\
          wb' = pre ++ mkWorksheet (ws_title ws) (ws_max_row ws)
                         (kept ++ [chart_bar (ws_max_row ws); chart_line (ws_max_row ws)])
                       :: post /\
          incl kept (charts ws) /\
          List.length kept = (List.length (charts ws) / 2)%nat
    end.
Proof.
  intros Hrefl. unfold agregar_graficos.
  destruct (find es_resumen wb) as [ws|] eqn:Hfind.
  - destruct (eliminar_graficos_length eqb (charts ws) Hrefl) as [kept [-> [Hlen Hincl]]].
    destruct (find_resumen_split wb ws Hfind) as [pre [post [-> [Hpre Hws]]]].
    rewrite (guardar_hoja_app _ pre post ws Hpre Hws).
    eexists. split; [reflexivity|]. split.
    + unfold sheetnames. rewrite !map_app. reflexivity.
    + exists kept, pre, post. repeat split; assumption.
  - exists wb. repeat split.
Qed.

Lemma agregar_graficos_resumen_witness :
  (forall c, Chart_eqb c c = true) /\
  exists wb',
    agregar_graficos Chart_eqb
      [hoja_de_datos "Ingresos" 3;
       mkWorksheet "Resumen" 13 [chart_bar 13; chart_line 13]] = Some wb' /\
    sheetnames wb' = ["Ingresos"; "Resumen"]%string /\
    exists kept pre post,
      [hoja_de_datos "Ingresos" 3; mkWorksheet "Resumen" 13 [chart_bar 13; chart_line 13]] =
        pre ++ mkWorksheet "Resumen" 13 [chart_bar 13; chart_line 13] :: post /\
      wb' = pre ++ mkWorksheet "Resumen" 13 (kept ++ [chart_bar 13; chart_line 13]) :: post /\
      incl kept [chart_bar 13; chart_line 13] /\
      List.length kept = 1%nat.
Proof.
  split; [exact Chart_eqb_refl|].
  exact (agregar_graficos_resumen Chart_eqb
           [hoja_de_datos "Ingresos" 3;
            mkWorksheet "Resumen" 13 [chart_bar 13; chart_line 13]] Chart_eqb_refl).
Defined.

(** * The sheets of a run *)

Lemma escribir_consultas_spec (db : Respuestas) (cs : list Consulta) :
  forall (libro : Workbook) (dataframes : list string) (hojas_escritas : bool),
  escribir_consultas db cs (libro, dataframes, hojas_escritas) =
  (libro ++ map (fun c => hoja_de_datos (nombre_hoja c) (len_df db c))
                (filter (con_filas db) cs),
   dataframes ++ map nombre_hoja (filter (con_filas db) cs),
   hojas_escritas || existsb (con_filas db) cs).
Proof.
  induction cs as [|c cs IH]; intros libro dataframes hojas_escritas.
  - cbn. rewrite !app_nil_r, orb_false_r. reflexivity.
  - cbn [escribir_consultas filter existsb].
    destruct (Nat.eqb (len_df db c) 0) eqn:Hc.
    + assert (Hf : con_filas db c = false) by (unfold con_filas; rewrite Hc; reflexivity).
      rewrite Hf, IH. reflexivity.
    + assert (Hf : con_filas db c = true) by (unfold con_filas; rewrite Hc; reflexivity).
      rewrite Hf, IH. cbn [map]. rewrite <- !app_assoc. cbn [app orb].
      rewrite orb_true_r. reflexivity.
Qed.

Lemma hojas_consultas_sin_resumen (db : Respuestas) :
  Forall (fun h => es_resumen h = false) (hojas_consultas db).
Proof.
  unfold hojas_consultas. apply Forall_forall. intros h Hh.
  apply in_map_iff in Hh as [c [<- _]]. destruct c; reflexivity.
Qed.

Lemma hojas_consultas_sin_graficos (db : Respuestas) :
  Forall (fun h => charts h = []) (hojas_consultas db).
Proof.
  unfold hojas_consultas. apply Forall_forall. intros h Hh.
  apply in_map_iff in Hh as [c [<- _]]. reflexivity.
Qed.

Lemma claves_mensuales (db : Respuestas) :
  existsb (String.eqb "Ingresos Mensuales") (map nombre_hoja (filter (con_filas db) consultas))
    = negb (empty (r_Ingresos_Mensuales db)) /\
  existsb (String.eqb "Egresos Mensuales") (map nombre_hoja (filter (con_filas db) consultas))
    = negb (empty (r_Egresos_Mensuales db)).
Proof.
  unfold consultas, con_filas. cbn [filter len_df].
  destruct (r_Ingresos_Mensuales db) as [|i ing], (r_Egresos_Mensuales db) as [|e egr];
    destruct (Nat.eqb (r_Ingresos db) 0), (Nat.eqb (r_Egresos db) 0),
             (Nat.eqb (r_Matricula db) 0), (Nat.eqb (r_Nomina db) 0);
    split; reflexivity.
Qed.

Lemma hojas_escritas_spec (db : Respuestas) :
  existsb (con_filas db) consultas =
  match hojas_consultas db with [] => false | _ => true end.
Proof.
  unfold hojas_consultas.
  induction consultas as [|c cs IH]; [reflexivity|].
  cbn [existsb filter]. destruct (con_filas db c); [reflexivity|]. exact IH.
Qed.

(** The run, case by case. *)
Lemma main_libro_cases (eqb : Chart -> Chart -> bool) (db : Respuestas) (anio : string) :
  main_libro eqb db anio =
  if negb (empty (r_Ingresos_Mensuales db)) && negb (empty (r_Egresos_Mensuales db))
  then match resumen (r_Ingresos_Mensuales db) (r_Egresos_Mensuales db) (PyStr anio) with
       | inl e => inl e
       | inr t =>
           let max_row := Z.of_nat (List.length t) + 1 in
           inr (hojas_consultas db ++
                [mkWorksheet "Resumen" max_row [chart_bar max_row; chart_line max_row]])
       end
  else inr (match hojas_consultas db with
            | [] => [hoja_info]
            | hojas => hojas
            end).
Proof.
  unfold main_libro. rewrite escribir_consultas_spec. cbn [app orb].
  destruct (claves_mensuales db) as [-> ->]. rewrite hojas_escritas_spec.
  fold (hojas_consultas db). fold (resumen (r_Ingresos_Mensuales db) (r_Egresos_Mensuales db) (PyStr anio)).
  destruct (negb (empty (r_Ingresos_Mensuales db)) && negb (empty (r_Egresos_Mensuales db))).
  - destruct (resumen _ _ _) as [e|t]; [reflexivity|].
    unfold agregar_graficos.
    pose proof (hojas_consultas_sin_resumen db) as Hsin.
    set (ws := hoja_de_datos "Resumen" (List.length t)).
    rewrite (find_resumen_app (hojas_consultas db) [] ws Hsin eq_refl).
    cbn [charts ws hoja_de_datos eliminar_graficos remove_loop List.length app].
    rewrite (guardar_hoja_app _ (hojas_consultas db) [] ws Hsin eq_refl).
    reflexivity.
  - destruct (hojas_consultas db) as [|h hojas] eqn:Hh.
    + reflexivity.
    + unfold agregar_graficos. rewrite find_resumen_none; [reflexivity|].
      rewrite <- Hh. apply hojas_consultas_sin_resumen.
Qed.

(** X13: when one of the two monthly queries returned no row, the run writes
    no summary and never looks at the year: whatever was typed, it ends
    with the sheets of the queries that returned rows, in the order of
    [consultas], or with the single sheet "Info" when none did.  The
    workbook is never without a sheet, has no sheet "Resumen", and no
    chart is attached to any sheet. *)
Theorem main_sin_resumen (eqb : Chart -> Chart -> bool) (db : Respuestas) (anio : string) :
  r_Ingresos_Mensuales db = [] \/ r_Egresos_Mensuales db = [] ->
  exists libro, main_libro eqb db anio = inr libro /\
    libro = match hojas_consultas db with [] => [hoja_info] | hojas => hojas end /\
    libro <> [] /\
    ~ In "Resumen"%string (sheetnames libro) /\
    Forall (fun ws => charts ws = []) libro.
Proof.
  intros Hvacio. rewrite main_libro_cases.
  assert (Hno : negb (empty (r_Ingresos_Mensuales db)) &&
                negb (empty (r_Egresos_Mensuales db)) = false).
  { destruct Hvacio as [-> | ->]; [reflexivity|apply andb_false_r]. }
  rewrite Hno. eexists. split; [reflexivity|]. split; [reflexivity|].
  pose proof (hojas_consultas_sin_resumen db) as Hsin.
  pose proof (hojas_consultas_sin_graficos db) as Hgraf.
  destruct (hojas_consultas db) as [|h hojas].
  - split; [discriminate|]. split; [|repeat constructor].
    cbn. intros [H|[]]. discriminate.
  - split; [discriminate|]. split; [|exact Hgraf].
    unfold sheetnames. intros Hin. apply in_map_iff in Hin as [ws [Ht Hws]].
    rewrite Forall_forall in Hsin. specialize (Hsin ws Hws).
    unfold es_resumen in Hsin. rewrite Ht in Hsin. discriminate.
Qed.

Lemma main_sin_resumen_witness :
  (r_Ingresos_Mensuales (mkRespuestas 3 0 ingresos_ejemplo [] 1 0) = [] \/
   r_Egresos_Mensuales (mkRespuestas 3 0 ingresos_ejemplo [] 1 0) = []) /\
  exists libro,
    main_libro Chart_eqb (mkRespuestas 3 0 ingresos_ejemplo [] 1 0) "dos mil" = inr libro /\
    libro = [hoja_de_datos "Ingresos" 3; hoja_de_datos "Ingresos Mensuales" 1;
             hoja_de_datos "Matricula" 1] /\
    libro <> [] /\
    ~ In "Resumen"%string (sheetnames libro) /\
    Forall (fun ws => charts ws = []) libro.
Proof.
  assert (H : r_Ingresos_Mensuales (mkRespuestas 3 0 ingresos_ejemplo [] 1 0) = [] \/
              r_Egresos_Mensuales (mkRespuestas 3 0 ingresos_ejemplo [] 1 0) = [])
    by (right; reflexivity).
  split; [exact H|].
  exact (main_sin_resumen Chart_eqb (mkRespuestas 3 0 ingresos_ejemplo [] 1 0) "dos mil" H).
Defined.



(** X15: a year that [int] does not read stops the run with [ValueError]
    exactly when both monthly queries returned rows; in every other case
    the run ends with a workbook. *)
Theorem main_value_error_iff (eqb : Chart -> Chart -> bool) (db : Respuestas)
    (anio : string) :
  main_libro eqb db anio = inl ValueError <->
  r_Ingresos_Mensuales db <> [] /\ r_Egresos_Mensuales db <> [] /\
  int (PyStr anio) = inl ValueError.
Proof.
  rewrite main_libro_cases.
  destruct (r_Ingresos_Mensuales db) as [|i ing] eqn:Hing.
  - cbn [empty negb andb]. split; [discriminate|]. intros [H _]. congruence.
  - destruct (r_Egresos_Mensuales db) as [|e egr] eqn:Hegr.
    + cbn [empty negb andb]. split; [discriminate|]. intros [_ [H _]]. congruence.
    + cbn [empty negb andb].
      destruct (int (PyStr anio)) as [[]|y] eqn:Hy.
      * unfold resumen, generar_resumen. rewrite Hy. cbn [snd].
        split; [intros _|reflexivity]. repeat split; discriminate.
      * rewrite (generar_resumen_rows _ _ (PyStr anio) y Hy).
        split; [discriminate|]. intros [_ [_ H]]. discriminate.
Qed.
